(** * Trade analyser: indicator library, trade scorer and backtest simulator

    Shallow embedding of [src/services/technicalAnalysis.ts] and of the
    backtesting service ([runBacktest], [calculateProfitLoss]).

    A JavaScript [number] is an IEEE 754 binary64 value; it is embedded as
    Rocq's primitive [float], whose operations are the processor's, so every
    definition below evaluates to the very value the program produces,
    rounding, infinities and NaN included. *)

From Stdlib Require Import String ZArith List Bool Lia Floats.
Import ListNotations.

Set Warnings "-inexact-float".

(** ** The fragment of JavaScript the program uses *)

Module JS.

Local Open Scope float_scope.

(** What an array read can produce: a number, or [undefined] when the index
    is out of range. *)
Inductive value : Set :=
| Undefined
| Num (x : float).

(** [ToNumber]: the coercion applied to the operands of [-], [*], [/], [+]. *)
Definition ToNumber (v : value) : float :=
  match v with
  | Undefined => nan
  | Num x => x
  end.

(** [a[i]] on a [number[]]. *)
Definition num_at (a : list float) (i : nat) : value :=
  match nth_error a i with
  | Some x => Num x
  | None => Undefined
  end.

(** [a[i]] on an array whose cells may hold [undefined]. *)
Definition val_at (a : list value) (i : nat) : value :=
  match nth_error a i with
  | Some v => v
  | None => Undefined
  end.

(** [a[a.length - 1]]: index [-1] of the empty array is [undefined]. *)
Definition num_last (a : list float) : value :=
  match a with
  | [] => Undefined
  | _ => num_at a (length a - 1)
  end.

Definition val_last (a : list value) : value :=
  match a with
  | [] => Undefined
  | _ => val_at a (length a - 1)
  end.

(** [a.slice(-n)]: the last [n] elements, all of them when there are
    fewer; [slice(-0)] is [slice(0)], the whole array. *)
Definition slice_last {A : Type} (n : nat) (a : list A) : list A :=
  match n with
  | O => a
  | _ => skipn (length a - n) a
  end.

(** [a.slice(i, j)] for [0 <= i <= j]. *)
Definition slice {A : Type} (i j : nat) (a : list A) : list A :=
  firstn (j - i) (skipn i a).

(** [a.reduce((x, y) => x + y, 0)]. *)
Definition sum_from (init : float) (a : list float) : float :=
  fold_left add a init.

(** [a.reduce((x, y) => x + y)] on a non-empty array: the first element
    seeds the accumulator.  (On the empty array JavaScript throws; the
    program only calls it on windows of [period] elements.) *)
Definition sum1 (a : list float) : option float :=
  match a with
  | [] => None
  | x :: rest => Some (fold_left add rest x)
  end.

(** The number of elements of an array, as a [number]. *)
Definition of_nat (n : nat) : float :=
  of_uint63 (Uint63.of_Z (Z.of_nat n)).

(** [!x] on a number: NaN, [+0] and [-0] are falsy. *)
Definition falsy (x : float) : bool := is_nan x || is_zero x.

(** Comparisons; each is [false] as soon as an operand is NaN. *)
Definition gtb (x y : float) : bool := y <? x.
Definition geb (x y : float) : bool := y <=? x.

Definition Math_abs (x : float) : float := abs x.

Definition Math_sqrt (x : float) : float := sqrt x.

(** [Math.max(x, y)]: NaN if either is NaN; [+0] is larger than [-0]. *)
Definition Math_max (x y : float) : float :=
  if is_nan x || is_nan y then nan
  else if x <? y then y
  else if y <? x then x
  else if is_zero x then x + y
  else x.

(** [Math.min(x, y)]: NaN if either is NaN; [-0] is smaller than [+0]. *)
Definition Math_min (x y : float) : float :=
  if is_nan x || is_nan y then nan
  else if x <? y then x
  else if y <? x then y
  else if is_zero x then - ((- x) + (- y))
  else x.

(** An integer of magnitude below 2^63 as a float; the sign of a zero
    result is chosen by [neg]. *)
Definition of_Z (neg : bool) (n : Z) : float :=
  match n with
  | Z0 => if neg then neg_zero else zero
  | Zpos _ => of_uint63 (Uint63.of_Z n)
  | Zneg p => - of_uint63 (Uint63.of_Z (Zpos p))
  end.

(** [Math.round(x)]: the integer closest to [x], ties towards +infinity;
    NaN, the infinities and the zeros are returned as they are; a result of
    zero keeps the sign of [x].  A finite [x] is [(+/-) m * 2^e]; when
    [e < 0] the integer [floor (x + 1/2)] is computed exactly. *)
Definition Math_round (x : float) : float :=
  match Prim2SF x with
  | S754_finite s m e =>
      if (0 <=? e)%Z then x
      else
        let d := (2 ^ (- e))%Z in
        let sm := if s then Zneg m else Zpos m in
        of_Z s ((2 * sm + d) / (2 * d))%Z
  | _ => x
  end.

(** [Math.pow(x, 2)], the only exponent the modelled code uses with it. *)
Definition Math_pow2 (x : float) : float := x * x.

End JS.

Import JS.

(** ** Indicator library ([technicalAnalysis.ts]) *)

Module Indicators.

Local Open Scope float_scope.

(** The body of [for (let i = 1; i < prices.length; i++)] in
    [calculateEMA], run [n] times from index [i]; [ema] is the array built
    so far and [ema.push] appends to it. *)
Fixpoint ema_loop (n i : nat) (prices : list float) (multiplier : float)
                  (ema : list value) : list value :=
  match n with
  | O => ema
  | S n' =>
      let prev := ToNumber (val_at ema (i - 1)) in
      let currentEMA :=
        (ToNumber (num_at prices i) - prev) * multiplier + prev in
      ema_loop n' (S i) prices multiplier (ema ++ [Num currentEMA])
  end.

(** [calculateEMA(prices, period)].  The seed [prices[0]] is read without a
    length test, so it is [undefined] for the empty array. *)
Definition calculateEMA (prices : list float) (period : float) : list value :=
  let multiplier := 2 / (period + 1) in
  ema_loop (length prices - 1) 1 prices multiplier [num_at prices 0].

(** First loop of [calculateRSI]: the day-over-day gains and losses. *)
Fixpoint changes_loop (n i : nat) (prices gains losses : list float)
  : list float * list float :=
  match n with
  | O => (gains, losses)
  | S n' =>
      let change :=
        ToNumber (num_at prices i) - ToNumber (num_at prices (i - 1)) in
      changes_loop n' (S i) prices
        (gains ++ [if gtb change 0 then change else 0])
        (losses ++ [if change <? 0 then - change else 0])
  end.

(** [100 - (100 / (1 + avgGain / avgLoss))]. *)
Definition rsi_of (avgGain avgLoss : float) : float :=
  100 - (100 / (1 + avgGain / avgLoss)).

(** Second loop of [calculateRSI]: Wilder smoothing from index [i]. *)
Fixpoint smooth_loop (n i : nat) (period : float) (gains losses : list float)
                     (avgGain avgLoss : float) (rsi : list float) : list float :=
  match n with
  | O => rsi
  | S n' =>
      let avgGain' :=
        ((avgGain * (period - 1)) + ToNumber (num_at gains i)) / period in
      let avgLoss' :=
        ((avgLoss * (period - 1)) + ToNumber (num_at losses i)) / period in
      smooth_loop n' (S i) period gains losses avgGain' avgLoss'
        (rsi ++ [rsi_of avgGain' avgLoss'])
  end.

(** [calculateRSI(prices, period = 14)], for a period that is a natural
    number.  Neither division is guarded. *)
Definition calculateRSI (prices : list float) (period : nat) : list float :=
  let (gains, losses) := changes_loop (length prices - 1) 1 prices [] [] in
  let avgGain := sum_from 0 (slice 0 period gains) / of_nat period in
  let avgLoss := sum_from 0 (slice 0 period losses) / of_nat period in
  smooth_loop (length prices - 1 - period) period (of_nat period)
    gains losses avgGain avgLoss [rsi_of avgGain avgLoss].

Record Bands : Set := mkBands {
  upper : list float;
  middle : list float;
  lower : list float;
  bandWidths : list float;
  averageBandWidth : float
}.

(** The loop of [calculateBollingerBands] from index [i].  [None] stands for
    the TypeError of [reduce] on an empty window without initial value. *)
Fixpoint bands_loop (n i period : nat) (stdDev : float) (prices : list float)
                    (bands : Bands) : option Bands :=
  match n with
  | O => Some bands
  | S n' =>
      let window := slice (i + 1 - period) (i + 1) prices in
      match sum1 window with
      | None => None
      | Some total =>
          let sma := total / of_nat period in
          let squaredDiffs := map (fun price => Math_pow2 (price - sma)) window in
          match sum1 squaredDiffs with
          | None => None
          | Some totalSq =>
              let variance := totalSq / of_nat period in
              let standardDeviation := Math_sqrt variance in
              let bandWidth :=
                ((sma + (standardDeviation * stdDev))
                 - (sma - (standardDeviation * stdDev))) / sma * 100 in
              bands_loop n' (S i) period stdDev prices
                {| upper := upper bands ++ [sma + (standardDeviation * stdDev)];
                   middle := middle bands ++ [sma];
                   lower := lower bands ++ [sma - (standardDeviation * stdDev)];
                   bandWidths := bandWidths bands ++ [bandWidth];
                   averageBandWidth := averageBandWidth bands |}
          end
      end
  end.

(** [calculateBollingerBands(prices, period = 20, stdDev = 2, lookback = 100)].
    The loop starts at [period - 1]; with [period = 0] that is index [-1],
    whose window is empty, so the first [reduce] throws. *)
Definition calculateBollingerBands (prices : list float) (period : nat)
                                   (stdDev : float) (lookback : nat)
  : option Bands :=
  match period with
  | O => None
  | S _ =>
      match bands_loop (length prices + 1 - period) (period - 1) period stdDev
              prices (mkBands [] [] [] [] 0) with
      | None => None
      | Some bands =>
          let recentBandWidths := slice_last lookback (bandWidths bands) in
          Some {| upper := upper bands;
                  middle := middle bands;
                  lower := lower bands;
                  bandWidths := bandWidths bands;
                  averageBandWidth :=
                    sum_from 0 recentBandWidths
                    / of_nat (length recentBandWidths) |}
      end
  end.

End Indicators.

(** ** Trade scorer ([technicalAnalysis.ts]) *)

Inductive direction : Set := long | short.

Module Scorer.

Import Indicators.
Local Open Scope float_scope.

(** The argument of [calculateVolatilityScore]: both properties are
    optional in its type. *)
Record BandInfo : Set := mkBandInfo {
  info_bandWidths : option (list float);
  info_averageBandWidth : option float
}.

Definition calculateVolatilityScore (bb : BandInfo) : float :=
  match info_bandWidths bb, info_averageBandWidth bb with
  | Some widths, Some average =>
      if falsy average then 50
      else
        let currentBandWidth := ToNumber (num_last widths) in
        let volatilityRatio := currentBandWidth / average in
        Math_max 0 (Math_min 100 ((volatilityRatio - 0.5) * 100))
  | _, _ => 50
  end.

(** [calculateTrendScore(prices, ema, direction)]; [ema] is only used in
    arithmetic, so the caller's value is passed through [ToNumber]. *)
Definition calculateTrendScore (prices : list float) (ema : float)
                               (dir : direction) : float :=
  let recentPrices := slice_last 20 prices in
  let first := ToNumber (num_at recentPrices 0) in
  let priceChange := (ToNumber (num_last recentPrices) - first) / first * 100 in
  let emaDiff := ((ToNumber (num_last prices) - ema) / ema) * 100 in
  let trendStrength := (priceChange + emaDiff) / 2 in
  let score :=
    match dir with
    | long => 50 + (trendStrength * 5)
    | short => 50 - (trendStrength * 5)
    end in
  Math_max 0 (Math_min 100 score).

Definition calculateMomentumScore (rsi : float) (dir : direction) : float :=
  match dir with
  | long =>
      if rsi <? 30 then 90
      else if rsi <? 40 then 70
      else if gtb rsi 70 then 20
      else Math_max 0 (70 - rsi)
  | short =>
      if gtb rsi 70 then 90
      else if gtb rsi 60 then 70
      else if rsi <? 30 then 20
      else Math_max 0 (rsi - 30)
  end.

Record Probabilities : Set := mkProbabilities {
  tpProbability : float;
  slProbability : float
}.

(** [calculateTargetProbabilities], first part (up to the comment
    "Normalize probabilities"): the two raw values, that is the variables
    [tpProbability] and [slProbability] as they stand just ahead of
    [const total]. *)
Definition rawProbabilities
    (currentPrice takeProfit stopLoss : float) (dir : direction)
    (trendScore momentumScore volatilityScore : float) : float * float :=
  let tpDistance := Math_abs ((takeProfit - currentPrice) / currentPrice) * 100 in
  let slDistance := Math_abs ((stopLoss - currentPrice) / currentPrice) * 100 in
  let tpBase0 :=
    trendScore * 0.4 + momentumScore * 0.4 + (100 - volatilityScore) * 0.2 in
  let slBase0 := 100 - tpBase0 in
  let tpBaseProbability :=
    match dir with
    | long => tpBase0 * (trendScore / 100)
    | short => tpBase0 * (1 - trendScore / 100)
    end in
  let slBaseProbability :=
    match dir with
    | long => slBase0 * (1 - trendScore / 100)
    | short => slBase0 * (trendScore / 100)
    end in
  let tpDistanceImpact := Math_max 0 (1 - (tpDistance / 20)) in
  let slDistanceImpact := Math_max 0 (1 - (slDistance / 20)) in
  let volatilityMultiplier := volatilityScore / 100 in
  (tpBaseProbability * tpDistanceImpact * (1 - volatilityMultiplier),
   slBaseProbability * slDistanceImpact * volatilityMultiplier).

(** [calculateTargetProbabilities], second part: the division by [total]
    and the two independent roundings. *)
Definition normalize (raw : float * float) : Probabilities :=
  let (tpRaw, slRaw) := raw in
  let total := tpRaw + slRaw in
  {| tpProbability := Math_round ((tpRaw / total) * 100);
     slProbability := Math_round ((slRaw / total) * 100) |}.

Definition calculateTargetProbabilities
    (currentPrice takeProfit stopLoss : float) (dir : direction)
    (trendScore momentumScore volatilityScore : float) : Probabilities :=
  normalize (rawProbabilities currentPrice takeProfit stopLoss dir
               trendScore momentumScore volatilityScore).

(** [calculateTradeSuccessLikelihood] declares six parameters.  The last
    one is a [value]: a call that passes five arguments leaves it
    [undefined]. *)
Definition calculateTradeSuccessLikelihood
    (trendScore momentumScore volatilityScore riskRewardRatio
     tpProbability : float) (slProbability : value) : float :=
  let marketConditionScore :=
    trendScore * 0.4 + momentumScore * 0.4 + (100 - volatilityScore) * 0.2 in
  let tradeParametersScore :=
    Math_min 100 (riskRewardRatio * 33.33) * 0.4
    + tpProbability * 0.4
    + (100 - ToNumber slProbability) * 0.2 in
  Math_min 100 (marketConditionScore * 0.6 + tradeParametersScore * 0.4).

Local Open Scope string_scope.

Definition generateRecommendation (score : float) (dir : direction) : string :=
  match dir with
  | long =>
      if geb score 80 then "Strong Buy"
      else if geb score 60 then "Buy"
      else if geb score 40 then "Neutral"
      else if geb score 20 then "Avoid Long"
      else "Strong Avoid Long"
  | short =>
      if geb score 80 then "Strong Short"
      else if geb score 60 then "Short"
      else if geb score 40 then "Neutral"
      else if geb score 20 then "Avoid Short"
      else "Strong Avoid Short"
  end.

Local Close Scope string_scope.

Record TradeParams : Set := mkTradeParams {
  prices : list float;
  currentPrice : float;
  takeProfit : float;
  stopLoss : float;
  param_direction : option direction
}.

(** The numeric part of what [analyzeTrade] returns, and the
    recommendation.  The four explanation strings are text formatted from
    the same values and are left out. *)
Record ScoreResult : Set := mkScoreResult {
  trendScore : float;
  momentumScore : float;
  volatilityScore : float;
  overallScore : float;
  marketScore : float;
  recommendation : string;
  takeProfitProbability : float;
  stopLossProbability : float
}.

(** [analyzeTrade(params)]; [None] only if [calculateBollingerBands]
    throws.  The call of [calculateTradeSuccessLikelihood] passes the five
    arguments [trendScore, momentumScore, volatilityScore, tpProbability,
    slProbability] in this order, binding them to the first five
    parameters. *)
Definition analyzeTrade (params : TradeParams) : option ScoreResult :=
  let dir := match param_direction params with
             | Some d => d
             | None => long
             end in
  let ema20 := calculateEMA (prices params) 20 in
  let rsi := calculateRSI (prices params) 14 in
  match calculateBollingerBands (prices params) 20 2 100 with
  | None => None
  | Some bb =>
      let lastEMA := val_last ema20 in
      let lastRSI := num_last rsi in
      let lastBB := {| info_bandWidths := Some (bandWidths bb);
                       info_averageBandWidth := Some (averageBandWidth bb) |} in
      let trend := calculateTrendScore (prices params) (ToNumber lastEMA) dir in
      let momentum := calculateMomentumScore (ToNumber lastRSI) dir in
      let volatility := calculateVolatilityScore lastBB in
      let market :=
        Math_round ((0.4 * trend) + (0.3 * momentum)
                    + (0.3 * (100 - volatility))) in
      let probs :=
        calculateTargetProbabilities (currentPrice params) (takeProfit params)
          (stopLoss params) dir trend momentum volatility in
      let overall :=
        calculateTradeSuccessLikelihood trend momentum volatility
          (tpProbability probs) (slProbability probs) Undefined in
      Some {| trendScore := trend;
              momentumScore := momentum;
              volatilityScore := volatility;
              overallScore := overall;
              marketScore := market;
              recommendation := generateRecommendation overall dir;
              takeProfitProbability := tpProbability probs;
              stopLossProbability := slProbability probs |}
  end.

End Scorer.

(** ** Backtest simulator ([runBacktest]) and the types of [types/index.ts] *)

Module Backtest.

Local Open Scope float_scope.

Record OHLCData : Set := mkOHLC {
  time : float;
  open : float;
  high : float;
  low : float;
  close : float;
  volume : option float
}.

Inductive TradeResult : Set := take_profit | stop_loss.

Record TradeMetrics : Set := mkTradeMetrics {
  maxFavorableExcursion : float;
  maxAdverseExcursion : float;
  timeToExit : float;
  riskRewardRatio : float
}.

(** [BacktestTrade] as the interface declares it.  The four properties that
    the object literal pushed by [runBacktest] does not have are options:
    [None] is a property that is absent, read as [undefined]. *)
Record BacktestTrade : Set := mkBacktestTrade {
  entry_time : float;
  exit_time : float;
  entry_price : float;
  exit_price : float;
  high_price : float;
  low_price : float;
  result : option TradeResult;
  profit_loss : float;
  metrics : option TradeMetrics;
  stopLoss : option float;
  takeProfit : option float
}.

Record BacktestStatistics : Set := mkBacktestStatistics {
  total_trades : float;
  winning_trades : float;
  losing_trades : float;
  win_rate : float;
  average_profit : float;
  max_profit : float;
  max_loss : float;
  profit_factor : float;
  average_win : float;
  average_loss : float;
  average_time_to_exit : option float;
  average_risk_reward : option float;
  max_favorable_excursion : option float;
  max_adverse_excursion : option float
}.

(** [statistics: BacktestStatistics | null]: [None] is [null]. *)
Record BacktestResult : Set := mkBacktestResult {
  success : bool;
  trades : list BacktestTrade;
  statistics : option BacktestStatistics;
  message : option string
}.

Definition calculateProfitLoss (entryPrice exitPrice : float)
                               (dir : direction) : float :=
  match dir with
  | long => ((exitPrice - entryPrice) / entryPrice) * 100
  | short => ((entryPrice - exitPrice) / entryPrice) * 100
  end.

(** The local variables [exitPrice], [exitTime], [tradeResult] and
    [exitFound] of one iteration of the outer loop. *)
Record Exit : Set := mkExit {
  exitPrice : float;
  exitTime : float;
  tradeResult : TradeResult;
  exitFound : bool
}.

(** The body of the forward loop over [j], at [candle = prices[j]].  Fields
    typed [number] make [?? 0] the identity. *)
Definition scan_body (dir : direction) (tp sl : float) (candle : OHLCData)
                     (st : Exit) : Exit :=
  match dir with
  | long =>
      if geb (high candle) tp then mkExit tp (time candle) take_profit true
      else if low candle <=? sl then mkExit sl (time candle) stop_loss true
      else st
  | short =>
      if low candle <=? tp then mkExit tp (time candle) take_profit true
      else if geb (high candle) sl then mkExit sl (time candle) stop_loss true
      else st
  end.

(** [for (let j = i + 1; j < prices.length && !exitFound; j++)]: [future]
    is [prices[i+1 ..]]. *)
Fixpoint scan (dir : direction) (tp sl : float) (future : list OHLCData)
              (st : Exit) : Exit :=
  match future with
  | [] => st
  | candle :: rest =>
      if exitFound st then st
      else scan dir tp sl rest (scan_body dir tp sl candle st)
  end.

(** The locals after the forward loop and the [if (!exitFound)] block. *)
Definition exit_of (dir : direction) (tp sl : float) (nextCandle : OHLCData)
                   (future : list OHLCData) : Exit :=
  let st := scan dir tp sl future
              (mkExit (close nextCandle) (time nextCandle) stop_loss false) in
  if exitFound st then st
  else mkExit (close nextCandle) (time nextCandle) stop_loss false.

(** One iteration of the outer loop: the trade pushed for the entry at
    [currentCandle = prices[i]], with [nextCandle = prices[i+1]] and
    [future = prices[i+1 ..]].  [tradeResult] is computed and not stored;
    the literal has no [result], [metrics], [stopLoss] or [takeProfit].
    (The two [console.log] calls are not modelled.) *)
Definition simulate (dir : direction) (tp sl : float)
                    (currentCandle nextCandle : OHLCData)
                    (future : list OHLCData) : BacktestTrade :=
  let entryPrice := open currentCandle in
  let highPrice := high currentCandle in
  let lowPrice := low currentCandle in
  let ex := exit_of dir tp sl nextCandle future in
  let profitLoss := calculateProfitLoss entryPrice (exitPrice ex) dir in
  {| entry_time := time currentCandle;
     exit_time := exitTime ex;
     entry_price := entryPrice;
     high_price := highPrice;
     low_price := lowPrice;
     exit_price := exitPrice ex;
     profit_loss := profitLoss;
     result := None;
     metrics := None;
     stopLoss := None;
     takeProfit := None |}.

(** [for (let i = startIndex; i < prices.length - 1; i++)]: [window] is
    [prices[i ..]]; the loop stops when no next candle is left. *)
Fixpoint entries (dir : direction) (tp sl : float) (window : list OHLCData)
  : list BacktestTrade :=
  match window with
  | [] => []
  | currentCandle :: future =>
      match future with
      | [] => []
      | nextCandle :: _ =>
          simulate dir tp sl currentCandle nextCandle future
          :: entries dir tp sl future
      end
  end.

Definition runBacktest (prices : list OHLCData) (tp sl : float)
                       (dir : direction) : BacktestResult :=
  if (length prices <? 2)%nat then
    {| success := false;
       message := Some "Not enough price data"%string;
       trades := [];
       statistics := None |}
  else
    let startIndex := (length prices - 90)%nat in
    {| success := true;
       trades := entries dir tp sl (skipn startIndex prices);
       statistics := None;
       message := None |}.

(** The two exit conditions of the forward scan, by direction. *)
Definition tp_hit (dir : direction) (tp : float) (candle : OHLCData) : bool :=
  match dir with
  | long => geb (high candle) tp
  | short => low candle <=? tp
  end.

Definition sl_hit (dir : direction) (sl : float) (candle : OHLCData) : bool :=
  match dir with
  | long => low candle <=? sl
  | short => geb (high candle) sl
  end.

End Backtest.

(** ** Inputs used in the examples *)

Module Scenarios.

Local Open Scope float_scope.

(** A flat daily candle at price 100: open = high = low = close = 100. *)
Definition flat_candle (day : nat) : Backtest.OHLCData :=
  Backtest.mkOHLC (of_nat day * 86400) 100 100 100 100 None.

(** 90 flat candles at price 100, one per day. *)
Definition flat_series : list Backtest.OHLCData := map flat_candle (seq 0 90).

(** Three candles: a flat one, a quiet one, and one whose range spans both
    110 and 95. *)
Definition spike_series : list Backtest.OHLCData :=
  [Backtest.mkOHLC 1 100 100 100 100 None;
   Backtest.mkOHLC 2 100 101 99 100 None;
   Backtest.mkOHLC 3 100 120 90 100 None].

(** A short close-price history. *)
Definition sample_prices : list float := [100; 101; 102; 101; 100; 99; 101].

(** A constant price series. *)
Definition flat_prices : list float := repeat 100 16.

(** A strictly rising price series. *)
Definition rising_prices : list float :=
  [1; 2; 3; 4; 5; 6; 7; 8; 9; 10; 11; 12; 13; 14; 15; 16; 17].

End Scenarios.

(** The overall score as the specification words it: the market-condition
    sub-score takes the weights of the market score (0.4, 0.3, 0.3), and the
    blend is clamped on both sides. *)
Definition spec_overallScore
    (trendScore momentumScore volatilityScore riskRewardRatio
     tpProbability slProbability : float) : float :=
  let marketCondition :=
    (0.4 * trendScore + 0.3 * momentumScore
     + 0.3 * (100 - volatilityScore))%float in
  let tradeParameters :=
    (Math_min 100 (riskRewardRatio * 33.33) * 0.4 + tpProbability * 0.4
     + (100 - slProbability) * 0.2)%float in
  Math_max 0 (Math_min 100 (marketCondition * 0.6 + tradeParameters * 0.4)%float).

(** ** Predicates used in the statements *)

(** The specification-level floats that are at least zero: the zeros, the
    positive finite numbers and +infinity. *)
Definition SFnonneg (x : spec_float) : bool :=
  match x with
  | S754_zero _ | S754_finite false _ _ | S754_infinity false => true
  | _ => false
  end.

(** A number between 0 and 100, bounds included (so not NaN). *)
Definition in_0_100 (x : float) : bool := ((0 <=? x) && (x <=? 100))%float.

(** A finite number: neither NaN nor an infinity. *)
Definition finite (x : float) : bool := negb (is_nan x) && negb (is_infinity x).

(** Candle times strictly increase along the series. *)
Definition times_increase (prices : list Backtest.OHLCData) : Prop :=
  forall a b ca cb, (a < b)%nat ->
    nth_error prices a = Some ca -> nth_error prices b = Some cb ->
    (Backtest.time ca <? Backtest.time cb)%float = true.

(** One day of the gains and losses of calculateRSI: both are numbers that
    are at least 0 (never NaN), and at most one of them is not 0. *)
Definition gain_loss_day (gain loss : float) : Prop :=
  (0 <=? gain)%float = true /\ (0 <=? loss)%float = true
  /\ (gain = 0%float \/ loss = 0%float).

(** ** From price points to daily candles ([getCoinData]) *)

Module CoinData.

Import Backtest.
Local Open Scope float_scope.

(** [Math.floor(x)]: the largest integer not above [x]; NaN, the infinities
    and the zeros are returned as they are. *)
Definition Math_floor (x : float) : float :=
  match Prim2SF x with
  | S754_finite s m e =>
      if (0 <=? e)%Z then x
      else of_Z s ((if s then Zneg m else Zpos m) / 2 ^ (- e))%Z
  | _ => x
  end.

(** The variables of the conversion loop of [getCoinData]: the candles
    pushed so far, [currentDay] and [currentCandle] ([None] is [null]). *)
Record Conversion : Set := mkConversion {
  ohlcData : list OHLCData;
  currentDay : float;
  currentCandle : option OHLCData
}.

(** A candle opened by the price point [(timestamp, price)]. *)
Definition open_candle (timestamp price : float) : OHLCData :=
  {| time := Math_floor (timestamp / 1000);
     open := price; high := price; low := price; close := price;
     volume := None |}.

Section Loop.

(** [new Date(timestamp).getUTCDate()]: the day of the month of a time
    value.  The calendar is not modelled; the conversion is stated for any
    such function. *)
Variable getUTCDate : float -> float.

(** The body of [for (const [timestamp, price] of data.prices)].
    [currentDay === day] is the comparison of two numbers. *)
Definition convert_point (st : Conversion) (point : float * float)
  : Conversion :=
  let (timestamp, price) := point in
  let day := getUTCDate timestamp in
  match currentCandle st with
  | Some candle =>
      if currentDay st =? day then
        {| ohlcData := ohlcData st;
           currentDay := currentDay st;
           currentCandle :=
             Some {| time := time candle;
                     open := open candle;
                     high := Math_max (high candle) price;
                     low := Math_min (low candle) price;
                     close := price;
                     volume := volume candle |} |}
      else
        {| ohlcData := ohlcData st ++ [candle];
           currentDay := day;
           currentCandle := Some (open_candle timestamp price) |}
  | None =>
      {| ohlcData := ohlcData st;
         currentDay := day;
         currentCandle := Some (open_candle timestamp price) |}
  end.

(** The conversion of [data.prices] into [ohlcData] in [getCoinData]: the
    loop from [currentDay = -1] and [currentCandle = null], then the push of
    the last candle.  (Fetching and local storage are not modelled.) *)
Definition toOHLC (prices : list (float * float)) : list OHLCData :=
  let st := fold_left convert_point prices (mkConversion [] (-1) None) in
  match currentCandle st with
  | Some candle => ohlcData st ++ [candle]
  | None => ohlcData st
  end.

End Loop.

End CoinData.

(** A candle whose low is at most its open and its close, which are at most
    its high. *)
Definition well_formed (c : Backtest.OHLCData) : Prop :=
  (Backtest.low c <=? Backtest.open c)%float = true
  /\ (Backtest.open c <=? Backtest.high c)%float = true
  /\ (Backtest.low c <=? Backtest.close c)%float = true
  /\ (Backtest.close c <=? Backtest.high c)%float = true.

(** Consecutive price points fall on different days of the month. *)
Fixpoint one_point_per_day (getUTCDate : float -> float)
                           (prices : list (float * float)) : Prop :=
  match prices with
  | p :: (q :: _) as rest =>
      (getUTCDate (fst p) =? getUTCDate (fst q))%float = false
      /\ one_point_per_day getUTCDate rest
  | _ => True
  end.

(** * Properties *)

(** ** Facts about binary64 arithmetic *)

Section FloatFacts.

Local Open Scope float_scope.

Lemma SFadd_comm (prec emax : Z) (x y : spec_float) :
  SFadd prec emax x y = SFadd prec emax y x.
Proof.
  destruct x as [sx | sx | | sx mx ex], y as [sy | sy | | sy my ey];
    try reflexivity; try (destruct sx, sy; reflexivity).
  cbn [SFadd]. now rewrite Z.min_comm, Z.add_comm.
Qed.

(** Addition of two numbers does not depend on the order of its operands. *)
Lemma add_comm (x y : float) : x + y = y + x.
Proof.
  rewrite <- (SF2Prim_Prim2SF (x + y)), <- (SF2Prim_Prim2SF (y + x)).
  rewrite !add_spec. unfold SF64add. now rewrite SFadd_comm.
Qed.

(** NaN absorbs every sum. *)
Lemma add_nan_r (x : float) : x + nan = nan.
Proof.
  rewrite <- (SF2Prim_Prim2SF (x + nan)), add_spec.
  change (Prim2SF nan) with S754_nan.
  now destruct (Prim2SF x).
Qed.

Lemma Math_min_nan_r (x : float) : Math_min x nan = nan.
Proof. unfold Math_min. now rewrite orb_true_r. Qed.

(** [Math.min(100, x)] is never above 100 (it is NaN when [x] is). *)
Lemma Math_min_100_le (x : float) : gtb (Math_min 100 x) 100 = false.
Proof.
  unfold Math_min, gtb.
  destruct (is_nan 100 || is_nan x); [reflexivity |].
  destruct (100 <? x) eqn:Hlt; [reflexivity |].
  destruct (x <? 100); [exact Hlt | reflexivity].
Qed.

End FloatFacts.

(** ** calculateEMA *)

Section EMA.

Import Indicators.
Local Open Scope float_scope.

Variables (prices : list float) (multiplier : float).

Lemma ema_loop_length (n i : nat) (ema : list value) :
  length (ema_loop n i prices multiplier ema) = (length ema + n)%nat.
Proof.
  revert i ema; induction n as [| n IH]; intros i ema; cbn [ema_loop].
  - lia.
  - rewrite IH, length_app. cbn [length]. lia.
Qed.

(** What has been pushed stays where it is. *)
Lemma ema_loop_prefix (n i : nat) (ema : list value) (k : nat) :
  (k < length ema)%nat ->
  nth_error (ema_loop n i prices multiplier ema) k = nth_error ema k.
Proof.
  revert i ema; induction n as [| n IH]; intros i ema Hk; cbn [ema_loop].
  - reflexivity.
  - rewrite IH by (rewrite length_app; cbn [length]; lia).
    now apply nth_error_app1.
Qed.

(** Every cell written by the loop is the smoothing step applied to the
    cell before it. *)
Lemma ema_loop_step (n i : nat) (ema : list value) (k : nat) :
  i = length ema -> (1 <= i)%nat -> (i <= k < i + n)%nat ->
  let out := ema_loop n i prices multiplier ema in
  nth_error out k =
    Some (Num ((ToNumber (num_at prices k) - ToNumber (val_at out (k - 1)))
               * multiplier + ToNumber (val_at out (k - 1)))).
Proof.
  revert i ema; induction n as [| n IH]; intros i ema Hi H1 Hk; [lia |].
  cbn zeta. cbn [ema_loop].
  destruct (Nat.eq_dec k i) as [-> | Hne].
  - set (pushed := ema ++ [Num _]).
    assert (Hlen : length pushed = S (length ema))
      by (unfold pushed; rewrite length_app; cbn [length]; lia).
    assert (Hprev : val_at (ema_loop n (S i) prices multiplier pushed) (i - 1)
                    = val_at ema (i - 1)).
    { unfold val_at. rewrite ema_loop_prefix by lia.
      unfold pushed. now rewrite nth_error_app1 by lia. }
    rewrite Hprev, ema_loop_prefix by lia.
    unfold pushed. rewrite nth_error_app2 by lia.
    replace (i - length ema)%nat with 0%nat by lia.
    reflexivity.
  - apply IH; [rewrite length_app; cbn [length]; lia | lia | lia].
Qed.

(** The loop only pushes numbers. *)
Lemma ema_loop_numbers (n i : nat) (ema : list value) :
  Forall (fun v => exists x, v = Num x) ema ->
  Forall (fun v => exists x, v = Num x) (ema_loop n i prices multiplier ema).
Proof.
  revert i ema; induction n as [| n IH]; intros i ema Hall; cbn [ema_loop].
  - exact Hall.
  - apply IH, Forall_app. split; [exact Hall |].
    constructor; [eexists; reflexivity | constructor].
Qed.

End EMA.

(** C9.  For a non-empty price list and any period, the output of
    calculateEMA starts with the first input price, is as long as the input,
    and each later value is previous + (current - previous) * (2/(period+1)). *)
Theorem C9_calculateEMA_seed_length_step
    (prices : list float) (period : float) :
  prices <> [] ->
  let ema := Indicators.calculateEMA prices period in
  (exists first, hd_error prices = Some first /\ hd_error ema = Some (Num first))
  /\ length ema = length prices
  /\ forall i, (1 <= i < length prices)%nat ->
       exists previous current,
         nth_error ema (i - 1) = Some (Num previous)
         /\ nth_error prices i = Some current
         /\ nth_error ema i =
              Some (Num (previous + (current - previous) * (2 / (period + 1))))%float.
Proof.
  intros Hne ema.
  destruct prices as [| first rest]; [contradiction |]. clear Hne.
  remember (first :: rest) as ps eqn:Hp.
  assert (Hlen : length ema = length ps).
  { unfold ema, Indicators.calculateEMA.
    rewrite ema_loop_length, Hp. cbn [length]. lia. }
  split; [| split; [exact Hlen |]].
  - exists first. split; [now rewrite Hp |].
    assert (H0 : nth_error ema 0 = Some (Num first)).
    { unfold ema, Indicators.calculateEMA.
      rewrite ema_loop_prefix by (cbn [length]; lia).
      now rewrite Hp. }
    destruct ema; [discriminate | exact H0].
  - intros i Hi.
    assert (Hnum : Forall (fun v => exists x, v = Num x) ema).
    { unfold ema, Indicators.calculateEMA.
      apply ema_loop_numbers. rewrite Hp.
      constructor; [eexists; reflexivity | constructor]. }
    destruct (nth_error ema (i - 1)) as [v |] eqn:Hprev;
      [| apply nth_error_None in Hprev; lia].
    destruct (proj1 (Forall_forall _ _) Hnum v (nth_error_In _ _ Hprev))
      as [previous ->].
    destruct (nth_error ps i) as [current |] eqn:Hcur;
      [| apply nth_error_None in Hcur; lia].
    exists previous, current. split; [reflexivity | split; [reflexivity |]].
    pose proof (ema_loop_step ps (2 / (period + 1))%float
                  (length ps - 1) 1 [num_at ps 0] i) as Hstep.
    cbn zeta in Hstep. fold (Indicators.calculateEMA ps period) in Hstep.
    fold ema in Hstep.
    rewrite Hstep by (cbn [length]; lia).
    unfold val_at, num_at. rewrite Hprev, Hcur. cbn [ToNumber].
    now rewrite add_comm.
Qed.

(** Witness of C9 on the prices 1, 2, 3, 4 with period 20. *)
Lemma C9_calculateEMA_witness :
  let prices := [1; 2; 3; 4]%float in
  let ema := Indicators.calculateEMA prices 20 in
  (exists first, hd_error prices = Some first /\ hd_error ema = Some (Num first))
  /\ length ema = length prices
  /\ forall i, (1 <= i < length prices)%nat ->
       exists previous current,
         nth_error ema (i - 1) = Some (Num previous)
         /\ nth_error prices i = Some current
         /\ nth_error ema i =
              Some (Num (previous + (current - previous) * (2 / (20 + 1))))%float.
Proof.
  apply (C9_calculateEMA_seed_length_step [1; 2; 3; 4]%float 20%float).
  discriminate.
Defined.

(** C10.  On the empty price list calculateEMA returns the one-element array
    holding the out-of-bounds read [prices[0]] (undefined); for every input
    the output length is max(1, input length), so it equals the input length
    exactly when the input is not empty. *)
Theorem C10_calculateEMA_empty_input (prices : list float) (period : float) :
  Indicators.calculateEMA [] period = [Undefined]
  /\ length (Indicators.calculateEMA prices period) = Nat.max 1 (length prices)
  /\ (length (Indicators.calculateEMA prices period) = length prices
      <-> prices <> []).
Proof.
  assert (Hlen : length (Indicators.calculateEMA prices period)
                 = Nat.max 1 (length prices)).
  { unfold Indicators.calculateEMA. rewrite ema_loop_length.
    cbn [length]. lia. }
  split; [reflexivity | split; [exact Hlen |]].
  rewrite Hlen. destruct prices; cbn [length]; split; intro H;
    try lia; try discriminate; try congruence.
Qed.


(** ** runBacktest *)

Section BacktestFacts.

Import Backtest.
Local Open Scope float_scope.

Variables (dir : direction) (tp sl : float).

Lemma entries_length (window : list OHLCData) :
  length (entries dir tp sl window) = (length window - 1)%nat.
Proof.
  induction window as [| currentCandle future IH]; [reflexivity |].
  cbn [entries]. destruct future as [| nextCandle rest]; [reflexivity |].
  cbn [length] in *. rewrite IH. lia.
Qed.

(** The [k]-th trade of the ledger is the loop body run at the [k]-th candle
    of the window, with the candles after it as the scanned future. *)
Lemma entries_nth (window : list OHLCData) (k : nat) (trade : BacktestTrade) :
  nth_error (entries dir tp sl window) k = Some trade ->
  exists currentCandle nextCandle,
    nth_error window k = Some currentCandle
    /\ nth_error window (S k) = Some nextCandle
    /\ trade = simulate dir tp sl currentCandle nextCandle (skipn (S k) window).
Proof.
  revert k; induction window as [| currentCandle future IH]; intros k Hk.
  - destruct k; discriminate.
  - cbn [entries] in Hk. destruct future as [| nextCandle rest].
    + destruct k; discriminate.
    + destruct k as [| k].
      * injection Hk as <-. now exists currentCandle, nextCandle.
      * apply IH in Hk. exact Hk.
Qed.

Lemma scan_found (future : list OHLCData) (st : Exit) :
  exitFound st = true -> scan dir tp sl future st = st.
Proof. intros Hf. destruct future; cbn [scan]; [| rewrite Hf]; reflexivity. Qed.

Lemma scan_body_miss (candle : OHLCData) (st : Exit) :
  tp_hit dir tp candle || sl_hit dir sl candle = false ->
  scan_body dir tp sl candle st = st.
Proof.
  intros H. apply orb_false_elim in H as [Htp Hsl].
  unfold scan_body, tp_hit, sl_hit in *.
  destruct dir; now rewrite Htp, Hsl.
Qed.

Lemma scan_body_hit (candle : OHLCData) (st : Exit) :
  tp_hit dir tp candle || sl_hit dir sl candle = true ->
  scan_body dir tp sl candle st =
    if tp_hit dir tp candle
    then mkExit tp (time candle) take_profit true
    else mkExit sl (time candle) stop_loss true.
Proof.
  unfold scan_body, tp_hit, sl_hit.
  destruct dir.
  - destruct (geb (high candle) tp); [reflexivity |].
    cbn [orb]. now intros ->.
  - destruct (low candle <=? tp); [reflexivity |].
    cbn [orb]. now intros ->.
Qed.

(** The forward scan stops at the first candle on which a condition holds,
    and there the take-profit test is the one tried first. *)
Lemma scan_first_hit (future : list OHLCData) (st : Exit) (j : nat)
                     (candle : OHLCData) :
  exitFound st = false ->
  nth_error future j = Some candle ->
  tp_hit dir tp candle || sl_hit dir sl candle = true ->
  (forall j' c, (j' < j)%nat -> nth_error future j' = Some c ->
                tp_hit dir tp c || sl_hit dir sl c = false) ->
  scan dir tp sl future st =
    if tp_hit dir tp candle
    then mkExit tp (time candle) take_profit true
    else mkExit sl (time candle) stop_loss true.
Proof.
  revert j; induction future as [| c0 rest IH]; intros j Hst Hj Hhit Hbefore.
  - destruct j; discriminate.
  - cbn [scan]. rewrite Hst. destruct j as [| j].
    + injection Hj as ->. rewrite scan_body_hit by exact Hhit.
      apply scan_found. now destruct (tp_hit dir tp candle).
    + rewrite scan_body_miss by (apply (Hbefore 0%nat); [lia | reflexivity]).
      apply (IH j); try assumption.
      intros j' c Hj' Hc. apply (Hbefore (S j')); [lia | exact Hc].
Qed.

(** When no candle of the future meets a condition, the locals are left as
    initialised: next candle's close and time, tag [stop_loss]. *)
Lemma scan_no_hit (future : list OHLCData) (st : Exit) :
  Forall (fun c => tp_hit dir tp c || sl_hit dir sl c = false) future ->
  scan dir tp sl future st = st.
Proof.
  induction 1 as [| c rest Hc _ IH]; cbn [scan]; [reflexivity |].
  destruct (exitFound st); [reflexivity |].
  now rewrite scan_body_miss.
Qed.

End BacktestFacts.

Lemma nth_error_skipn_shift {A : Type} (n m : nat) (l : list A) :
  nth_error (skipn n l) m = nth_error l (n + m).
Proof.
  revert l; induction n as [| n IH]; intros l; [reflexivity |].
  destruct l; [now destruct m | apply IH].
Qed.

(** C7.  The trade entered at candle [startIndex + k] exits on the first later
    candle on which the take-profit or the stop-loss condition holds; when
    both hold on that candle the exit price is the take-profit price, for
    long and for short. *)
Theorem C7_exit_on_first_hit_take_profit_first
    (prices : list Backtest.OHLCData) (tp sl : float) (dir : direction)
    (k j : nat) (trade : Backtest.BacktestTrade) (candle : Backtest.OHLCData) :
  nth_error (Backtest.trades (Backtest.runBacktest prices tp sl dir)) k
    = Some trade ->
  (length prices - 90 + k < j)%nat ->
  nth_error prices j = Some candle ->
  Backtest.tp_hit dir tp candle || Backtest.sl_hit dir sl candle = true ->
  (forall j' c, (length prices - 90 + k < j' < j)%nat ->
                nth_error prices j' = Some c ->
                Backtest.tp_hit dir tp c || Backtest.sl_hit dir sl c = false) ->
  Backtest.exit_time trade = Backtest.time candle
  /\ Backtest.exit_price trade
     = (if Backtest.tp_hit dir tp candle then tp else sl)
  /\ (Backtest.sl_hit dir sl candle = true ->
      Backtest.tp_hit dir tp candle = true ->
      Backtest.exit_price trade = tp).
Proof.
  intros Hk Hj Hc Hhit Hbefore.
  unfold Backtest.runBacktest in Hk.
  destruct (length prices <? 2)%nat; cbn [Backtest.trades] in Hk;
    [destruct k; discriminate |].
  apply entries_nth in Hk as (cur & next & _ & Hnext & ->).
  set (start := (length prices - 90)%nat) in *.
  assert (Hscan :
    Backtest.scan dir tp sl (skipn (S k) (skipn start prices))
      (Backtest.mkExit (Backtest.close next) (Backtest.time next)
         Backtest.stop_loss false)
    = if Backtest.tp_hit dir tp candle
      then Backtest.mkExit tp (Backtest.time candle) Backtest.take_profit true
      else Backtest.mkExit sl (Backtest.time candle) Backtest.stop_loss true).
  { apply (scan_first_hit dir tp sl _ _ (j - S (start + k))).
    - reflexivity.
    - rewrite !nth_error_skipn_shift.
      replace (start + (S k + (j - S (start + k))))%nat with j by lia.
      exact Hc.
    - exact Hhit.
    - intros j' c Hj' Hc'. rewrite !nth_error_skipn_shift in Hc'.
      apply (Hbefore (start + (S k + j'))%nat); [lia | exact Hc']. }
  unfold Backtest.simulate, Backtest.exit_of.
  cbn [Backtest.exit_time Backtest.exit_price]. rewrite Hscan.
  destruct (Backtest.tp_hit dir tp candle); cbn;
    repeat split; intros; try reflexivity; discriminate.
Qed.

(** Witness of C7: a long trade with take-profit 110 and stop-loss 95; the
    second candle touches neither level, the third touches both. *)
Lemma C7_exit_witness :
  let quiet := Backtest.mkOHLC 2 100 101 99 100 None in
  let spike := Backtest.mkOHLC 3 100 120 90 100 None in
  let prices := [Backtest.mkOHLC 1 100 100 100 100 None; quiet; spike] in
  exists trade,
    nth_error (Backtest.trades (Backtest.runBacktest prices 110 95 long)) 0
      = Some trade
    /\ Backtest.tp_hit long 110 quiet || Backtest.sl_hit long 95 quiet = false
    /\ Backtest.tp_hit long 110 spike = true
    /\ Backtest.sl_hit long 95 spike = true
    /\ Backtest.exit_time trade = 3%float
    /\ Backtest.exit_price trade = 110%float
    /\ (Backtest.sl_hit long 95 spike = true ->
        Backtest.tp_hit long 110 spike = true ->
        Backtest.exit_price trade = 110%float).
Proof.
  intros quiet spike prices.
  eexists. split; [reflexivity |].
  do 3 (split; [reflexivity |]).
  apply (C7_exit_on_first_hit_take_profit_first prices 110 95 long 0 2 _ spike).
  - reflexivity.
  - cbn. lia.
  - reflexivity.
  - reflexivity.
  - intros j' c Hj' Hc. cbn in Hj'.
    assert (j' = 1%nat) as -> by lia.
    injection Hc as <-. reflexivity.
Defined.

Lemma entries_no_extras (dir : direction) (tp sl : float)
                        (window : list Backtest.OHLCData) :
  Forall (fun trade =>
            Backtest.metrics trade = None
            /\ Backtest.result trade = None
            /\ Backtest.stopLoss trade = None
            /\ Backtest.takeProfit trade = None)
         (Backtest.entries dir tp sl window).
Proof.
  induction window as [| currentCandle future IH]; [constructor |].
  cbn [Backtest.entries]. destruct future as [| nextCandle rest];
    [constructor |].
  constructor; [now repeat split | exact IH].
Qed.

(** C2, as the code has it.  With at least two candles runBacktest returns a
    successful result with the ledger of the last-90 window (one trade per
    candle but the last) and with no statistics: the field is null. *)
Theorem C2_runBacktest_statistics_absent
    (prices : list Backtest.OHLCData) (tp sl : float) (dir : direction) :
  (2 <= length prices)%nat ->
  let r := Backtest.runBacktest prices tp sl dir in
  Backtest.success r = true
  /\ Backtest.statistics r = None
  /\ length (Backtest.trades r) = (Nat.min (length prices) 90 - 1)%nat.
Proof.
  intros Hlen. unfold Backtest.runBacktest.
  destruct (length prices <? 2)%nat eqn:Hlt;
    [apply Nat.ltb_lt in Hlt; lia |].
  cbn. repeat split.
  rewrite entries_length, length_skipn. lia.
Qed.

Lemma C2_runBacktest_witness :
  let r := Backtest.runBacktest Scenarios.spike_series 110 95 long in
  (2 <= length Scenarios.spike_series)%nat
  /\ Backtest.success r = true
  /\ Backtest.statistics r = None
  /\ length (Backtest.trades r)
     = (Nat.min (length Scenarios.spike_series) 90 - 1)%nat.
Proof.
  split; [cbn; lia |].
  apply (C2_runBacktest_statistics_absent Scenarios.spike_series 110 95 long).
  cbn. lia.
Defined.

(** C2 as stated fails: on three candles the result is successful and its
    statistics are not present. *)
Lemma C2_statistics_not_present :
  let r := Backtest.runBacktest Scenarios.spike_series 110 95 long in
  (2 <= length Scenarios.spike_series)%nat
  /\ Backtest.success r = true
  /\ ~ (exists stats, Backtest.statistics r = Some stats).
Proof.
  split; [cbn; lia |]. split; [reflexivity |].
  intros [stats Hstats]. discriminate Hstats.
Qed.

(** C3 against the code.  No trade of any ledger carries metrics: the object
    pushed by runBacktest has no [metrics] property (nor [result], [stopLoss]
    or [takeProfit]), although [BacktestTrade] declares them. *)
Theorem C3_trades_carry_no_metrics
    (prices : list Backtest.OHLCData) (tp sl : float) (dir : direction) :
  Forall (fun trade =>
            Backtest.metrics trade = None
            /\ Backtest.result trade = None
            /\ Backtest.stopLoss trade = None
            /\ Backtest.takeProfit trade = None)
         (Backtest.trades (Backtest.runBacktest prices tp sl dir)).
Proof.
  unfold Backtest.runBacktest.
  destruct (length prices <? 2)%nat; cbn [Backtest.trades];
    [constructor | apply entries_no_extras].
Qed.

(** The ledger of the three-candle series, in full. *)
Example runBacktest_spike_series :
  Backtest.trades (Backtest.runBacktest Scenarios.spike_series 110 95 long)
  = [Backtest.mkBacktestTrade 1 3 100 110 100 100 None 10 None None None;
     Backtest.mkBacktestTrade 2 3 100 110 101 99 None 10 None None None]%float.
Proof. vm_compute. reflexivity. Qed.

(** Force-close: when nothing in the future touches a level, the locals keep
    the next candle's close and time, and the tag [stop_loss]. *)
Lemma exit_of_no_hit (dir : direction) (tp sl : float)
    (nextCandle : Backtest.OHLCData) (future : list Backtest.OHLCData) :
  Forall (fun c => Backtest.tp_hit dir tp c || Backtest.sl_hit dir sl c = false)
         future ->
  Backtest.exit_of dir tp sl nextCandle future
  = Backtest.mkExit (Backtest.close nextCandle) (Backtest.time nextCandle)
      Backtest.stop_loss false.
Proof.
  intros Hquiet. unfold Backtest.exit_of.
  now rewrite scan_no_hit by exact Hquiet.
Qed.

(** C6 against the code.  On 90 flat candles at 100 (long, take-profit 110,
    stop-loss 95) the ledger has 89 trades; each exits at the next candle's
    time and close (100) with profit_loss 0, and the loop's local tag is
    [stop_loss] each time, but no trade has a [result] field. *)
Theorem C6_flat_series_ledger :
  let r := Backtest.runBacktest Scenarios.flat_series 110 95 long in
  length Scenarios.flat_series = 90%nat
  /\ Backtest.success r = true
  /\ map (fun trade => (Backtest.exit_time trade, Backtest.exit_price trade,
                        Backtest.profit_loss trade, Backtest.result trade))
         (Backtest.trades r)
     = map (fun nextCandle => (Backtest.time nextCandle, 100%float, 0%float, None))
           (tl Scenarios.flat_series)
  /\ map (fun k => match skipn (S k) Scenarios.flat_series with
                   | nextCandle :: _ as future =>
                       Some (Backtest.tradeResult
                               (Backtest.exit_of long 110 95 nextCandle future))
                   | [] => None
                   end)
         (seq 0 89)
     = repeat (Some Backtest.stop_loss) 89.
Proof. vm_compute. repeat split. Qed.

(** ** calculateBollingerBands never throws with the default period *)

Section BandsTotal.

Import Indicators.

Lemma sum1_defined (a : list float) :
  (1 <= length a)%nat -> exists total, sum1 a = Some total.
Proof. destruct a; cbn; [lia | eauto]. Qed.

Lemma bands_loop_total (n i period : nat) (stdDev : float)
                       (prices : list float) (bands : Bands) :
  (1 <= period <= i + 1)%nat ->
  (n = 0 \/ i + n <= length prices)%nat ->
  exists result, bands_loop n i period stdDev prices bands = Some result.
Proof.
  revert i bands; induction n as [| n IH]; intros i bands Hp Hn.
  - cbn. eauto.
  - cbn [bands_loop].
    set (window := slice (i + 1 - period) (i + 1) prices).
    assert (Hwin : (1 <= length window)%nat).
    { unfold window, slice. rewrite length_firstn, length_skipn. lia. }
    destruct (sum1_defined window Hwin) as [total ->].
    destruct (sum1_defined
                (map (fun price => Math_pow2 (price - total / of_nat period)%float)
                     window)) as [totalSq ->];
      [now rewrite length_map |].
    apply IH; lia.
Qed.

Lemma calculateBollingerBands_default_total (prices : list float) :
  exists bands, calculateBollingerBands prices 20 2 100 = Some bands.
Proof.
  unfold calculateBollingerBands.
  destruct (bands_loop_total (length prices + 1 - 20) (20 - 1) 20 2 prices
              (mkBands [] [] [] [] 0)) as [bands ->]; [lia | lia |].
  eauto.
Qed.

End BandsTotal.

(** ** The trade scorer *)

Section ScorerFacts.

Import Scorer.
Local Open Scope float_scope.

(** With its sixth argument missing, calculateTradeSuccessLikelihood returns
    NaN whatever the other five are. *)
Lemma calculateTradeSuccessLikelihood_five_arguments
    (trendScore momentumScore volatilityScore riskRewardRatio
     tpProbability : float) :
  calculateTradeSuccessLikelihood trendScore momentumScore volatilityScore
    riskRewardRatio tpProbability Undefined = nan.
Proof.
  unfold calculateTradeSuccessLikelihood. cbn [ToNumber].
  change ((100 - nan) * 0.2) with nan. rewrite add_nan_r.
  change (nan * 0.4) with nan. rewrite add_nan_r.
  apply Math_min_nan_r.
Qed.

(** analyzeTrade always returns, and its overall score is NaN on every
    input: its call of calculateTradeSuccessLikelihood passes five arguments
    for six parameters. *)
Lemma analyzeTrade_overallScore_nan (params : TradeParams) :
  exists r, analyzeTrade params = Some r /\ overallScore r = nan.
Proof.
  unfold analyzeTrade.
  destruct (calculateBollingerBands_default_total (prices params)) as [bb ->].
  eexists. split; [reflexivity |].
  cbn [overallScore]. apply calculateTradeSuccessLikelihood_five_arguments.
Qed.

End ScorerFacts.

(** C1, as the code has it.  Given all six arguments as numbers,
    calculateTradeSuccessLikelihood returns min(100, 60% of the
    market-condition sub-score + 40% of the trade-parameters sub-score), the
    former with the weights 0.4, 0.4, 0.2 on trend, momentum and inverted
    volatility, the latter made of the risk/reward contribution capped at 100,
    the take-profit probability and the inverse of the stop-loss probability;
    the result is never above 100. *)
Theorem C1_overall_score_blend
    (trendScore momentumScore volatilityScore riskRewardRatio
     tpProbability slProbability : float) :
  let marketCondition :=
    (trendScore * 0.4 + momentumScore * 0.4
     + (100 - volatilityScore) * 0.2)%float in
  let tradeParameters :=
    (Math_min 100 (riskRewardRatio * 33.33) * 0.4 + tpProbability * 0.4
     + (100 - slProbability) * 0.2)%float in
  let overall :=
    Scorer.calculateTradeSuccessLikelihood trendScore momentumScore
      volatilityScore riskRewardRatio tpProbability (Num slProbability) in
  overall = Math_min 100 (marketCondition * 0.6 + tradeParameters * 0.4)%float
  /\ gtb overall 100 = false.
Proof.
  cbn zeta. split; [reflexivity |].
  unfold Scorer.calculateTradeSuccessLikelihood. apply Math_min_100_le.
Qed.

(** C1 as stated fails.  On the sample history the overall score returned by
    analyzeTrade is NaN, which is not in [0,100]; and the market-condition
    sub-score does not have the weights of the market score: for trend 0,
    momentum 100, volatility 100 the function gives 24 where the blend with
    the market score's weights gives 18. *)
Lemma C1_overall_score_counterexample :
  option_map Scorer.overallScore
    (Scorer.analyzeTrade
       (Scorer.mkTradeParams Scenarios.sample_prices 101 105 99 (Some long)))
  = Some nan
  /\ (0 <=? nan)%float = false
  /\ (nan <=? 100)%float = false
  /\ Scorer.calculateTradeSuccessLikelihood 0 100 100 0 0 (Num 100) = 24%float
  /\ spec_overallScore 0 100 100 0 0 100 = 18%float.
Proof. vm_compute. repeat split. Qed.

(** C4 against the code.  Raw values 4.6875 and 7.8125 normalise to 37.5 and
    62.5, and each is rounded up: 38 + 63 = 101.  The same happens through
    analyzeTrade on the sample history (42 + 59 = 101), and the two roundings
    can also both go down (21 + 78 = 99). *)
Theorem C4_probabilities_do_not_sum_to_100 :
  Scorer.rawProbabilities 100 112.5 92.5 long 50 50 50 = (4.6875, 7.8125)%float
  /\ Scorer.calculateTargetProbabilities 100 112.5 92.5 long 50 50 50
     = Scorer.mkProbabilities 38 63
  /\ (38 + 63 =? 100)%float = false
  /\ option_map
       (fun r => (Scorer.takeProfitProbability r, Scorer.stopLossProbability r))
       (Scorer.analyzeTrade
          (Scorer.mkTradeParams Scenarios.sample_prices 101 102.6236662150607 99
             (Some long)))
     = Some (42, 59)%float
  /\ option_map
       (fun r => (Scorer.takeProfitProbability r, Scorer.stopLossProbability r))
       (Scorer.analyzeTrade
          (Scorer.mkTradeParams Scenarios.sample_prices 101 114.02806114096926 99
             (Some long)))
     = Some (21, 78)%float.
Proof. vm_compute. repeat split. Qed.

(** C5 against the code.  With both targets 20% or more away from the
    current price both raw values are zero, the total is zero, and the two
    probabilities returned are NaN; there is no fallback. *)
Theorem C5_zero_total_gives_nan :
  Scorer.rawProbabilities 100 130 70 long 50 50 50 = (0, 0)%float
  /\ Scorer.calculateTargetProbabilities 100 130 70 long 50 50 50
     = Scorer.mkProbabilities nan nan
  /\ option_map
       (fun r => (Scorer.takeProfitProbability r, Scorer.stopLossProbability r))
       (Scorer.analyzeTrade
          (Scorer.mkTradeParams Scenarios.sample_prices 101 130 75 (Some long)))
     = Some (nan, nan).
Proof. vm_compute. repeat split. Qed.

(** ** calculateRSI *)

(** When there are gains and no loss the division by zero gives +infinity
    and the value is 100. *)
Example calculateRSI_rising :
  Indicators.calculateRSI Scenarios.rising_prices 14 = [100; 100; 100]%float.
Proof. vm_compute. reflexivity. Qed.

(** C8 against the code.  On a constant price series the average gain and the
    average loss are both zero, 0/0 is NaN, and every value returned is NaN:
    neither at least 0 nor at most 100. *)
Theorem C8_calculateRSI_constant_series_nan :
  Indicators.calculateRSI Scenarios.flat_prices 14 = [nan; nan]
  /\ Indicators.rsi_of 0 0 = nan
  /\ (0 <=? nan)%float = false
  /\ (nan <=? 100)%float = false.
Proof. vm_compute. repeat split. Qed.

(** * Further properties of the code *)

(** ** runBacktest: outcome, ledger and window *)

(** X1.  The outcome of runBacktest on any input: it succeeds exactly when there
    are at least two candles; with fewer it reports "Not enough price data"
    and an empty ledger; the ledger has one trade per candle but the last of
    the last-90 window; the statistics are null either way. *)
Theorem runBacktest_outcome
    (prices : list Backtest.OHLCData) (tp sl : float) (dir : direction) :
  let r := Backtest.runBacktest prices tp sl dir in
  Backtest.success r = (2 <=? length prices)%nat
  /\ Backtest.message r
     = (if (2 <=? length prices)%nat then None
        else Some "Not enough price data"%string)
  /\ length (Backtest.trades r) = (Nat.min (length prices) 90 - 1)%nat
  /\ Backtest.statistics r = None.
Proof.
  unfold Backtest.runBacktest.
  destruct (length prices <? 2)%nat eqn:Hlt.
  - apply Nat.ltb_lt in Hlt.
    replace (2 <=? length prices)%nat with false
      by (symmetry; apply Nat.leb_gt; lia).
    cbn. repeat split. lia.
  - apply Nat.ltb_ge in Hlt.
    replace (2 <=? length prices)%nat with true
      by (symmetry; apply Nat.leb_le; lia).
    cbn. repeat split. rewrite entries_length, length_skipn. lia.
Qed.

Lemma entries_entry_fields (dir : direction) (tp sl : float)
                           (window : list Backtest.OHLCData) :
  map (fun trade => (Backtest.entry_time trade, Backtest.entry_price trade,
                     Backtest.high_price trade, Backtest.low_price trade))
      (Backtest.entries dir tp sl window)
  = map (fun c => (Backtest.time c, Backtest.open c, Backtest.high c,
                   Backtest.low c))
        (removelast window).
Proof.
  induction window as [| currentCandle future IH]; [reflexivity |].
  cbn [Backtest.entries]. destruct future as [| nextCandle rest];
    [reflexivity |].
  change (removelast (currentCandle :: nextCandle :: rest))
    with (currentCandle :: removelast (nextCandle :: rest)).
  cbn [map]. now rewrite IH.
Qed.

(** X2.  The ledger is in chronological entry order: its trades are entered, one
    after the other, at the candles of the last-90 window but the last, and
    each copies its entry time, entry price (the open), high and low from its
    entry candle. *)
Theorem runBacktest_entries_follow_window
    (prices : list Backtest.OHLCData) (tp sl : float) (dir : direction) :
  map (fun trade => (Backtest.entry_time trade, Backtest.entry_price trade,
                     Backtest.high_price trade, Backtest.low_price trade))
      (Backtest.trades (Backtest.runBacktest prices tp sl dir))
  = map (fun c => (Backtest.time c, Backtest.open c, Backtest.high c,
                   Backtest.low c))
        (removelast (skipn (length prices - 90) prices)).
Proof.
  unfold Backtest.runBacktest.
  destruct (length prices <? 2)%nat eqn:Hlt; cbn [Backtest.trades].
  - apply Nat.ltb_lt in Hlt.
    replace (length prices - 90)%nat with 0%nat by lia. cbn [skipn].
    destruct prices as [| c [| c' rest]]; [reflexivity | reflexivity |].
    cbn [length] in Hlt. lia.
  - apply entries_entry_fields.
Qed.

(** X3.  Candles older than the 90 most recent ones have no effect on the result. *)
Theorem runBacktest_ignores_older_history
    (older recent : list Backtest.OHLCData) (tp sl : float) (dir : direction) :
  (90 <= length recent)%nat ->
  Backtest.runBacktest (older ++ recent) tp sl dir
  = Backtest.runBacktest recent tp sl dir.
Proof.
  intros Hlen. unfold Backtest.runBacktest. rewrite length_app.
  replace (length older + length recent <? 2)%nat with false
    by (symmetry; apply Nat.ltb_ge; lia).
  replace (length recent <? 2)%nat with false
    by (symmetry; apply Nat.ltb_ge; lia).
  rewrite skipn_app, skipn_all2 by lia. cbn [app].
  replace (length older + length recent - 90 - length older)%nat
    with (length recent - 90)%nat by lia.
  reflexivity.
Qed.

Lemma runBacktest_ignores_older_history_witness :
  (90 <= length Scenarios.flat_series)%nat
  /\ Backtest.runBacktest (Scenarios.spike_series ++ Scenarios.flat_series)
       110 95 long
     = Backtest.runBacktest Scenarios.flat_series 110 95 long.
Proof.
  split; [cbn; lia |].
  apply (runBacktest_ignores_older_history Scenarios.spike_series
           Scenarios.flat_series 110 95 long).
  cbn. lia.
Defined.

Section ExitFacts.

Import Backtest.
Variables (dir : direction) (tp sl : float).

(** The forward scan either leaves the locals untouched or stops at a candle
    of the future, with the exit price one of the two levels. *)
Lemma scan_cases (future : list OHLCData) (st : Exit) :
  exitFound st = false ->
  scan dir tp sl future st = st
  \/ exists j c, nth_error future j = Some c
       /\ scan dir tp sl future st
          = if tp_hit dir tp c
            then mkExit tp (time c) take_profit true
            else mkExit sl (time c) stop_loss true.
Proof.
  revert st; induction future as [| c0 rest IH]; intros st Hst; [now left |].
  cbn [scan]. rewrite Hst.
  destruct (tp_hit dir tp c0 || sl_hit dir sl c0) eqn:Hhit.
  - right. exists 0%nat, c0. split; [reflexivity |].
    rewrite scan_body_hit by exact Hhit.
    apply scan_found. now destruct (tp_hit dir tp c0).
  - rewrite scan_body_miss by exact Hhit.
    destruct (IH st Hst) as [Hsame | (j & c & Hj & Hscan)]; [now left |].
    right. now exists (S j), c.
Qed.

End ExitFacts.

(** Where one iteration of the outer loop can exit: at a candle of the
    scanned future, at one of the two levels, or at the close of the first
    candle of that future. *)
Lemma exit_of_cases (dir : direction) (tp sl : float)
    (nextCandle : Backtest.OHLCData) (rest : list Backtest.OHLCData) :
  let ex := Backtest.exit_of dir tp sl nextCandle (nextCandle :: rest) in
  exists j c,
    nth_error (nextCandle :: rest) j = Some c
    /\ Backtest.exitTime ex = Backtest.time c
    /\ (Backtest.exitPrice ex = tp
        \/ Backtest.exitPrice ex = sl
        \/ (j = 0%nat /\ Backtest.exitPrice ex = Backtest.close c)).
Proof.
  cbn zeta. unfold Backtest.exit_of.
  destruct (scan_cases dir tp sl (nextCandle :: rest)
              (Backtest.mkExit (Backtest.close nextCandle)
                 (Backtest.time nextCandle) Backtest.stop_loss false) eq_refl)
    as [-> | (j & c & Hj & ->)].
  - exists 0%nat, nextCandle. cbn.
    split; [reflexivity |]. split; [reflexivity |].
    right; right. now split.
  - exists j, c. split; [exact Hj |].
    destruct (Backtest.tp_hit dir tp c); cbn; auto.
Qed.

(** X4.  Every trade exits at the time of a candle that comes after its entry
    candle, and at one of three prices: the take-profit level, the stop-loss
    level, or, when forced to close, the close of the candle right after the
    entry. *)
Theorem runBacktest_exit_candidates
    (prices : list Backtest.OHLCData) (tp sl : float) (dir : direction)
    (k : nat) (trade : Backtest.BacktestTrade) :
  nth_error (Backtest.trades (Backtest.runBacktest prices tp sl dir)) k
    = Some trade ->
  exists j c,
    (length prices - 90 + k < j)%nat
    /\ nth_error prices j = Some c
    /\ Backtest.exit_time trade = Backtest.time c
    /\ (Backtest.exit_price trade = tp
        \/ Backtest.exit_price trade = sl
        \/ (j = S (length prices - 90 + k)
            /\ Backtest.exit_price trade = Backtest.close c)).
Proof.
  intros Hk. unfold Backtest.runBacktest in Hk.
  destruct (length prices <? 2)%nat; cbn [Backtest.trades] in Hk;
    [destruct k; discriminate |].
  set (start := (length prices - 90)%nat) in *.
  apply entries_nth in Hk as (cur & next & _ & Hnext & ->).
  destruct (skipn (S k) (skipn start prices)) as [| next' rest] eqn:Hfuture;
    [rewrite <- (Nat.add_0_r (S k)), <- nth_error_skipn_shift, Hfuture in Hnext;
     discriminate |].
  assert (next' = next) as ->.
  { rewrite <- (Nat.add_0_r (S k)), <- nth_error_skipn_shift, Hfuture in Hnext.
    now injection Hnext. }
  destruct (exit_of_cases dir tp sl next rest) as (j & c & Hj & Htime & Hprice).
  rewrite <- Hfuture, !nth_error_skipn_shift in Hj.
  exists (start + (S k + j))%nat, c.
  unfold Backtest.simulate.
  cbn [Backtest.exit_time Backtest.exit_price].
  split; [lia |]. split; [exact Hj |]. split; [exact Htime |].
  destruct Hprice as [H | [H | [-> H]]]; auto.
  right; right. split; [lia | exact H].
Qed.

Lemma runBacktest_exit_candidates_witness :
  exists trade,
    nth_error (Backtest.trades
                 (Backtest.runBacktest Scenarios.spike_series 110 95 long)) 0
      = Some trade
    /\ exists j c,
         (length Scenarios.spike_series - 90 + 0 < j)%nat
         /\ nth_error Scenarios.spike_series j = Some c
         /\ Backtest.exit_time trade = Backtest.time c
         /\ (Backtest.exit_price trade = 110%float
             \/ Backtest.exit_price trade = 95%float
             \/ (j = S (length Scenarios.spike_series - 90 + 0)
                 /\ Backtest.exit_price trade = Backtest.close c)).
Proof.
  eexists. split; [reflexivity |].
  apply (runBacktest_exit_candidates Scenarios.spike_series 110 95 long 0).
  reflexivity.
Defined.

(** X5.  Force-close: when no candle after the entry meets either condition, the
    trade exits at the time and close of the candle right after the entry,
    and its profit is computed from the entry candle's open and that close. *)
Theorem runBacktest_force_close
    (prices : list Backtest.OHLCData) (tp sl : float) (dir : direction)
    (k : nat) (trade : Backtest.BacktestTrade) :
  nth_error (Backtest.trades (Backtest.runBacktest prices tp sl dir)) k
    = Some trade ->
  (forall j c, (length prices - 90 + k < j)%nat ->
               nth_error prices j = Some c ->
               Backtest.tp_hit dir tp c || Backtest.sl_hit dir sl c = false) ->
  exists entry next,
    nth_error prices (length prices - 90 + k) = Some entry
    /\ nth_error prices (S (length prices - 90 + k)) = Some next
    /\ Backtest.exit_time trade = Backtest.time next
    /\ Backtest.exit_price trade = Backtest.close next
    /\ Backtest.profit_loss trade
       = Backtest.calculateProfitLoss (Backtest.open entry)
           (Backtest.close next) dir.
Proof.
  intros Hk Hquiet. unfold Backtest.runBacktest in Hk.
  destruct (length prices <? 2)%nat; cbn [Backtest.trades] in Hk;
    [destruct k; discriminate |].
  set (start := (length prices - 90)%nat) in *.
  apply entries_nth in Hk as (cur & next & Hcur & Hnext & ->).
  rewrite nth_error_skipn_shift in Hcur, Hnext.
  exists cur, next.
  replace (S (start + k)) with (start + S k)%nat by lia.
  split; [exact Hcur |]. split; [exact Hnext |].
  unfold Backtest.simulate.
  cbn [Backtest.exit_time Backtest.exit_price Backtest.profit_loss].
  rewrite exit_of_no_hit; [now cbn |].
  apply Forall_forall. intros c Hin.
  apply In_nth_error in Hin as [j Hj].
  rewrite !nth_error_skipn_shift in Hj.
  apply (Hquiet (start + (S k + j))%nat); [lia | exact Hj].
Qed.

Lemma runBacktest_force_close_witness :
  let prices := firstn 2 Scenarios.spike_series in
  exists trade entry next,
    nth_error (Backtest.trades (Backtest.runBacktest prices 110 95 long)) 0
      = Some trade
    /\ nth_error prices (length prices - 90 + 0) = Some entry
    /\ nth_error prices (S (length prices - 90 + 0)) = Some next
    /\ Backtest.exit_time trade = Backtest.time next
    /\ Backtest.exit_price trade = Backtest.close next
    /\ Backtest.profit_loss trade
       = Backtest.calculateProfitLoss (Backtest.open entry)
           (Backtest.close next) long.
Proof.
  intros prices.
  destruct (runBacktest_force_close prices 110 95 long 0 _ eq_refl)
    as (entry & next & H).
  - intros j c Hj Hc. cbn in Hj.
    destruct j as [| [| j]]; [lia | | destruct j; discriminate Hc].
    injection Hc as <-. reflexivity.
  - eexists. exists entry, next. split; [reflexivity | exact H].
Defined.

(** X6.  On a series whose candle times strictly increase, every trade exits
    strictly after it was entered. *)
Theorem runBacktest_exit_after_entry
    (prices : list Backtest.OHLCData) (tp sl : float) (dir : direction)
    (k : nat) (trade : Backtest.BacktestTrade) :
  times_increase prices ->
  nth_error (Backtest.trades (Backtest.runBacktest prices tp sl dir)) k
    = Some trade ->
  (Backtest.entry_time trade <? Backtest.exit_time trade)%float = true.
Proof.
  intros Hinc Hk. unfold Backtest.runBacktest in Hk.
  destruct (length prices <? 2)%nat; cbn [Backtest.trades] in Hk;
    [destruct k; discriminate |].
  set (start := (length prices - 90)%nat) in *.
  apply entries_nth in Hk as (cur & next & Hcur & Hnext & ->).
  rewrite nth_error_skipn_shift in Hcur.
  destruct (skipn (S k) (skipn start prices)) as [| next' rest] eqn:Hfuture;
    [rewrite <- (Nat.add_0_r (S k)), <- nth_error_skipn_shift, Hfuture in Hnext;
     discriminate |].
  assert (next' = next) as ->.
  { rewrite <- (Nat.add_0_r (S k)), <- nth_error_skipn_shift, Hfuture in Hnext.
    now injection Hnext. }
  destruct (exit_of_cases dir tp sl next rest) as (j & c & Hj & Htime & _).
  rewrite <- Hfuture, !nth_error_skipn_shift in Hj.
  unfold Backtest.simulate.
  cbn [Backtest.entry_time Backtest.exit_time]. rewrite Htime.
  apply (Hinc (start + k)%nat (start + (S k + j))%nat cur c);
    [lia | exact Hcur | exact Hj].
Qed.

Lemma runBacktest_exit_after_entry_witness :
  times_increase Scenarios.spike_series
  /\ exists trade,
       nth_error (Backtest.trades
                    (Backtest.runBacktest Scenarios.spike_series 110 95 long)) 1
         = Some trade
       /\ (Backtest.entry_time trade <? Backtest.exit_time trade)%float = true.
Proof.
  assert (Hinc : times_increase Scenarios.spike_series).
  { intros a b ca cb Hab Ha Hb.
    assert (Hb3 : (b < 3)%nat)
      by (apply (nth_error_Some Scenarios.spike_series); congruence).
    destruct a as [| [| [| a]]]; destruct b as [| [| [| b]]];
      try lia; cbn in Ha, Hb;
      injection Ha as <-; injection Hb as <-; reflexivity. }
  split; [exact Hinc |].
  eexists. split; [reflexivity |].
  apply (runBacktest_exit_after_entry Scenarios.spike_series 110 95 long 1 _
           Hinc).
  reflexivity.
Defined.

(** ** Order and special values of binary64 numbers *)

Section FloatOrder.

Local Open Scope float_scope.

Lemma Prim2SF_inj (x y : float) : Prim2SF x = Prim2SF y -> x = y.
Proof.
  intros H. rewrite <- (SF2Prim_Prim2SF x), <- (SF2Prim_Prim2SF y).
  now rewrite H.
Qed.

Lemma SFcompare_refl_finite (s : bool) (m : positive) (e : Z) :
  SFcompare (S754_finite s m e) (S754_finite s m e) = Some Eq.
Proof.
  unfold SFcompare. rewrite Z.compare_refl, Pos.compare_cont_refl.
  now destruct s.
Qed.

Lemma is_nan_spec (x : float) :
  is_nan x = match Prim2SF x with S754_nan => true | _ => false end.
Proof.
  unfold is_nan. rewrite eqb_spec. unfold SFeqb.
  destruct (Prim2SF x) as [s | s | | s m e].
  - reflexivity.
  - now destruct s.
  - reflexivity.
  - now rewrite SFcompare_refl_finite.
Qed.

Lemma is_nan_true (x : float) : is_nan x = true -> x = nan.
Proof.
  rewrite is_nan_spec. intros H. apply Prim2SF_inj.
  change (Prim2SF nan) with S754_nan.
  now destruct (Prim2SF x).
Qed.

Lemma leb_0_spec (x : float) : (0 <=? x) = SFnonneg (Prim2SF x).
Proof.
  rewrite leb_spec. change (Prim2SF 0) with (S754_zero false).
  destruct (Prim2SF x) as [s | s | | s m e]; try destruct s; reflexivity.
Qed.

Lemma shr_1_nonneg (mrs : shr_record) :
  (0 <= shr_m mrs)%Z -> (0 <= shr_m (shr_1 mrs))%Z.
Proof.
  destruct mrs as [m r s]. cbn [shr_m shr_1].
  destruct m as [| p | p]; [| destruct p | ]; cbn; lia.
Qed.

Lemma iter_shr_1_nonneg (p : positive) (mrs : shr_record) :
  (0 <= shr_m mrs)%Z -> (0 <= shr_m (iter_pos shr_1 p mrs))%Z.
Proof.
  revert mrs; induction p as [p IH | p IH |]; intros mrs H; cbn [iter_pos].
  - apply IH, IH, shr_1_nonneg, H.
  - apply IH, IH, H.
  - apply shr_1_nonneg, H.
Qed.

Lemma shr_fexp_nonneg (prec emax m e : Z) (l : location) :
  (0 <= m)%Z -> (0 <= shr_m (fst (shr_fexp prec emax m e l)))%Z.
Proof.
  intros H. unfold shr_fexp, shr.
  assert (H0 : (0 <= shr_m (shr_record_of_loc m l))%Z)
    by (destruct l as [| []]; exact H).
  destruct (_ - e)%Z; cbn [fst]; try exact H0.
  now apply iter_shr_1_nonneg.
Qed.

Lemma round_nearest_even_nonneg (m : Z) (l : location) :
  (0 <= m)%Z -> (0 <= round_nearest_even m l)%Z.
Proof.
  intros H. destruct l as [| []]; cbn [round_nearest_even]; try lia.
  destruct (Z.even m); lia.
Qed.

Lemma binary_round_aux_nonneg (prec emax mx ex : Z) (lx : location) :
  (0 <= mx)%Z -> SFnonneg (binary_round_aux prec emax false mx ex lx) = true.
Proof.
  intros H. unfold binary_round_aux.
  pose proof (shr_fexp_nonneg prec emax mx ex lx H) as H1.
  destruct (shr_fexp prec emax mx ex lx) as [mrs' e']. cbn [fst] in H1.
  pose proof (shr_fexp_nonneg prec emax _ e' loc_Exact
                (round_nearest_even_nonneg _ (loc_of_shr_record mrs') H1)) as H2.
  destruct (shr_fexp prec emax _ e' loc_Exact) as [mrs'' e'']. cbn [fst] in H2.
  destruct (shr_m mrs'') as [| p | p]; [reflexivity | | lia].
  now destruct (e'' <=? emax - prec)%Z.
Qed.

Lemma binary_normalize_nonneg (prec emax m e : Z) :
  (0 <= m)%Z -> SFnonneg (binary_normalize prec emax m e false) = true.
Proof.
  intros H. destruct m as [| p | p]; [reflexivity | | lia].
  cbn [binary_normalize]. unfold binary_round.
  destruct (shl_align p e _) as [mz ez].
  now apply binary_round_aux_nonneg.
Qed.

Lemma SFadd_nonneg (prec emax : Z) (x y : spec_float) :
  SFnonneg x = true -> SFnonneg y = true ->
  SFnonneg (SFadd prec emax x y) = true.
Proof.
  destruct x as [sx | [] | | [] mx ex], y as [sy | [] | | [] my ey];
    try discriminate; intros _ _; try reflexivity.
  - now destruct sx, sy.
  - cbn [SFadd cond_Zopp]. now apply binary_normalize_nonneg.
Qed.

Lemma SFmul_nonneg (prec emax : Z) (x : spec_float) (m : positive) (e : Z) :
  SFnonneg x = true ->
  SFnonneg (SFmul prec emax x (S754_finite false m e)) = true.
Proof.
  destruct x as [sx | [] | | [] mx ex]; try discriminate; intros _;
    try reflexivity.
  cbn [SFmul xorb]. now apply binary_round_aux_nonneg.
Qed.

(** Sums of numbers that are at least zero are at least zero. *)
Lemma add_nonneg (x y : float) :
  (0 <=? x) = true -> (0 <=? y) = true -> (0 <=? x + y) = true.
Proof.
  rewrite !leb_0_spec, add_spec. apply SFadd_nonneg.
Qed.

(** So are their products with a positive finite constant. *)
Lemma mul_nonneg (x c : float) (m : positive) (e : Z) :
  Prim2SF c = S754_finite false m e ->
  (0 <=? x) = true -> (0 <=? x * c) = true.
Proof.
  intros Hc. rewrite !leb_0_spec, mul_spec, Hc. apply SFmul_nonneg.
Qed.

Lemma digits2_pos_bound (m : positive) :
  (Zpos m < 2 ^ Zpos (digits2_pos m))%Z.
Proof.
  induction m as [m IH | m IH |]; cbn [digits2_pos];
    rewrite ?Pos2Z.inj_succ, ?Z.pow_succ_r by lia; lia.
Qed.

Lemma iter_xO_double (m d : positive) :
  (2 * Zpos m <= Zpos (Pos.iter xO m d))%Z.
Proof.
  induction d as [| d IH] using Pos.peano_ind.
  - cbn. lia.
  - rewrite Pos.iter_succ. lia.
Qed.


Lemma sub_100_nonneg (x : float) :
  (0 <=? x) = true -> (x <=? 100) = true -> (0 <=? 100 - x) = true.
Proof.
  rewrite !leb_0_spec, leb_spec, sub_spec.
  pose proof (Prim2SF_valid x) as Hvalid.
  change (Prim2SF 100) with (S754_finite false 7036874417766400 (-46)).
  destruct (Prim2SF x) as [sx | [] | | [] mx ex]; try discriminate;
    intros _ Hle; try reflexivity.
  unfold SF64sub. cbn [SFsub cond_Zopp].
  apply binary_normalize_nonneg.
  unfold SFleb, SFcompare in Hle.
  cbn [valid_binary] in Hvalid. unfold bounded, canonical_mantissa in Hvalid.
  apply andb_prop in Hvalid as [Hcanon _]. apply Z.eqb_eq in Hcanon.
  unfold fexp in Hcanon.
  pose proof (digits2_pos_bound mx) as Hdigits.
  change prec with 53%Z in Hcanon. change emin with (-1074)%Z in Hcanon.
  assert (Hd53 : (Z.pos (digits2_pos mx) <= 53)%Z) by lia.
  assert (Hmx : (Zpos mx < 2 ^ 53)%Z).
  { eapply Z.lt_le_trans; [exact Hdigits |].
    apply Z.pow_le_mono_r; lia. }
  clear Hdigits Hcanon Hd53.
  unfold shl_align.
  destruct (Z.compare_spec ex (-46)) as [Heq | Hlt | Hgt];
    [| | discriminate Hle].
  - subst ex. rewrite Z.min_id, Z.sub_diag. cbn [fst]. clear Hmx.
    apply Z.le_0_sub, Pos2Z.pos_le_pos. unfold Pos.le, Pos.compare.
    intros Hgt. rewrite Hgt in Hle. discriminate Hle.
  - rewrite Z.min_r by lia. rewrite Z.sub_diag. clear Hle.
    destruct (ex - -46)%Z as [| d | d] eqn:Hd; cbn [fst]; [lia | lia |].
    pose proof (iter_xO_double 7036874417766400 d).
    change (2 ^ 53)%Z with 9007199254740992%Z in Hmx. lia.
Qed.
Lemma nonneg_not_nan (x : float) : (0 <=? x) = true -> is_nan x = false.
Proof.
  rewrite leb_0_spec. unfold is_nan. rewrite eqb_spec.
  destruct (Prim2SF x) as [sx | [] | | [] mx ex]; try discriminate;
    intros _; try reflexivity.
  unfold SFeqb, SFcompare.
  now rewrite Z.compare_refl, Pos.compare_cont_refl.
Qed.

Lemma ltb_leb (x y : float) : (x <? y) = true -> (x <=? y) = true.
Proof.
  rewrite ltb_spec, leb_spec. unfold SFltb, SFleb.
  now destruct (SFcompare (Prim2SF x) (Prim2SF y)) as [[] |].
Qed.


(** Between two numbers neither of which is below the other, and with
    neither NaN, [0 + x] is [0] when one of them is [0]. *)
Lemma zero_add_unordered (x : float) :
  is_nan x = false -> (0 <? x) = false -> (x <? 0) = false -> 0 + x = 0.
Proof.
  rewrite is_nan_spec, !ltb_spec. intros Hnan Hpos Hneg.
  apply Prim2SF_inj. rewrite add_spec.
  change (Prim2SF 0) with (S754_zero false) in *.
  destruct (Prim2SF x) as [s | s | | s m e]; try discriminate.
  - now destruct s.
  - now destruct s.
  - now destruct s.
Qed.

Lemma Math_max_0_nonneg (y : float) :
  is_nan y = false -> (0 <=? Math_max 0 y) = true.
Proof.
  intros Hnan. unfold Math_max.
  change (is_nan 0) with false. rewrite Hnan. cbn [orb].
  destruct (0 <? y) eqn:Hpos; [now apply ltb_leb |].
  destruct (y <? 0) eqn:Hneg; [reflexivity |].
  change (is_zero 0) with true. cbn iota.
  now rewrite zero_add_unordered.
Qed.


Lemma Math_min_100_range (x : float) :
  (0 <=? x) = true -> in_0_100 (Math_min 100 x) = true.
Proof.
  intros Hx. unfold Math_min, in_0_100.
  change (is_nan 100) with false. rewrite (nonneg_not_nan x Hx). cbn [orb].
  destruct (100 <? x); [reflexivity |].
  destruct (x <? 100) eqn:Hsmall; [| reflexivity].
  now rewrite Hx, ltb_leb.
Qed.

Lemma in_0_100_elim (x : float) :
  in_0_100 x = true -> (0 <=? x) = true /\ (x <=? 100) = true.
Proof. unfold in_0_100. intros H. now apply andb_prop in H. Qed.

End FloatOrder.

(** ** The component scores *)


(** X8.  Given six numeric arguments with the three scores and the two
    probabilities between 0 and 100 and a risk/reward ratio that is at least
    0, calculateTradeSuccessLikelihood returns a number between 0 and 100. *)
Theorem calculateTradeSuccessLikelihood_in_range
    (trendScore momentumScore volatilityScore riskRewardRatio
     tpProbability slProbability : float) :
  in_0_100 trendScore = true ->
  in_0_100 momentumScore = true ->
  in_0_100 volatilityScore = true ->
  (0 <=? riskRewardRatio)%float = true ->
  in_0_100 tpProbability = true ->
  in_0_100 slProbability = true ->
  in_0_100
    (Scorer.calculateTradeSuccessLikelihood trendScore momentumScore
       volatilityScore riskRewardRatio tpProbability (Num slProbability))
  = true.
Proof.
  intros Ht Hm Hv Hrr Htp Hsl.
  apply in_0_100_elim in Ht as [Ht _], Hm as [Hm _], Hv as [Hv0 Hv],
    Htp as [Htp _], Hsl as [Hsl0 Hsl].
  unfold Scorer.calculateTradeSuccessLikelihood. cbn [ToNumber].
  apply Math_min_100_range.
  assert (H04 : Prim2SF 0.4 = S754_finite false 7205759403792794 (-54))
    by reflexivity.
  assert (H02 : Prim2SF 0.2 = S754_finite false 7205759403792794 (-55))
    by reflexivity.
  assert (H06 : Prim2SF 0.6 = S754_finite false 5404319552844595 (-53))
    by reflexivity.
  assert (H33 : Prim2SF 33.33 = S754_finite false 4690780486883082 (-47))
    by reflexivity.
  apply add_nonneg.
  - apply (mul_nonneg _ _ _ _ H06).
    repeat apply add_nonneg.
    + now apply (mul_nonneg _ _ _ _ H04).
    + now apply (mul_nonneg _ _ _ _ H04).
    + apply (mul_nonneg _ _ _ _ H02). now apply sub_100_nonneg.
  - apply (mul_nonneg _ _ _ _ H04).
    repeat apply add_nonneg.
    + apply (mul_nonneg _ _ _ _ H04).
      apply in_0_100_elim, Math_min_100_range.
      now apply (mul_nonneg _ _ _ _ H33).
    + now apply (mul_nonneg _ _ _ _ H04).
    + apply (mul_nonneg _ _ _ _ H02). now apply sub_100_nonneg.
Qed.

Lemma calculateTradeSuccessLikelihood_in_range_witness :
  in_0_100 54 = true /\ in_0_100 13 = true /\ in_0_100 50 = true
  /\ (0 <=? 2)%float = true /\ in_0_100 38 = true /\ in_0_100 62 = true
  /\ in_0_100
       (Scorer.calculateTradeSuccessLikelihood 54 13 50 2 38 (Num 62)) = true.
Proof.
  repeat (split; [reflexivity |]).
  apply (calculateTradeSuccessLikelihood_in_range 54 13 50 2 38 62);
    reflexivity.
Defined.

Section NotNaN.

Local Open Scope float_scope.

Lemma binary_round_aux_not_nan (prec emax : Z) (s : bool) (mx ex : Z)
                               (lx : location) :
  (0 <= mx)%Z -> binary_round_aux prec emax s mx ex lx <> S754_nan.
Proof.
  intros H. unfold binary_round_aux.
  pose proof (shr_fexp_nonneg prec emax mx ex lx H) as H1.
  destruct (shr_fexp prec emax mx ex lx) as [mrs' e']. cbn [fst] in H1.
  pose proof (shr_fexp_nonneg prec emax _ e' loc_Exact
                (round_nearest_even_nonneg _ (loc_of_shr_record mrs') H1)) as H2.
  destruct (shr_fexp prec emax _ e' loc_Exact) as [mrs'' e'']. cbn [fst] in H2.
  destruct (shr_m mrs'') as [| p | p]; [discriminate | | lia].
  destruct (e'' <=? emax - prec)%Z; discriminate.
Qed.

Lemma binary_normalize_not_nan (prec emax m e : Z) :
  binary_normalize prec emax m e false <> S754_nan.
Proof.
  destruct m as [| p | p]; [discriminate | |];
    cbn [binary_normalize]; unfold binary_round;
    destruct (shl_align p e _) as [mz ez];
    apply binary_round_aux_not_nan; lia.
Qed.

(** A difference with a finite operand is NaN only if the other operand is. *)
Lemma sub_finite_l_not_nan (c y : float) (s : bool) (m : positive) (e : Z) :
  Prim2SF c = S754_finite s m e -> is_nan y = false -> is_nan (c - y) = false.
Proof.
  intros Hc. rewrite !is_nan_spec, sub_spec, Hc. unfold SF64sub.
  destruct (Prim2SF y) as [sy | sy | | sy my ey]; try discriminate;
    intros _; try reflexivity.
  cbn [SFsub].
  destruct (binary_normalize prec emax _ _ false) eqn:Hn; try reflexivity.
  now apply binary_normalize_not_nan in Hn.
Qed.

Lemma sub_finite_r_not_nan (y c : float) (s : bool) (m : positive) (e : Z) :
  Prim2SF c = S754_finite s m e -> is_nan y = false -> is_nan (y - c) = false.
Proof.
  intros Hc. rewrite !is_nan_spec, sub_spec, Hc. unfold SF64sub.
  destruct (Prim2SF y) as [sy | sy | | sy my ey]; try discriminate;
    intros _; try reflexivity.
  cbn [SFsub].
  destruct (binary_normalize prec emax _ _ false) eqn:Hn; try reflexivity.
  now apply binary_normalize_not_nan in Hn.
Qed.

End NotNaN.

(** X9.  The momentum score is NaN exactly when the RSI it is given is NaN (all
    tier tests fail and the fall-through subtracts it); for any other RSI,
    infinite ones included, it is a number that is at least 0. *)
Theorem calculateMomentumScore_nan_or_nonneg (rsi : float) (dir : direction) :
  if is_nan rsi
  then Scorer.calculateMomentumScore rsi dir = nan
  else is_nan (Scorer.calculateMomentumScore rsi dir) = false
       /\ (0 <=? Scorer.calculateMomentumScore rsi dir)%float = true.
Proof.
  destruct (is_nan rsi) eqn:Hnan.
  - apply is_nan_true in Hnan. subst rsi. now destruct dir.
  - assert (H70 : Prim2SF 70 = S754_finite false 4925812092436480 (-46))
      by reflexivity.
    assert (H30 : Prim2SF 30 = S754_finite false 8444249301319680 (-48))
      by reflexivity.
    pose proof (sub_finite_l_not_nan 70 rsi _ _ _ H70 Hnan) as Hl.
    pose proof (sub_finite_r_not_nan rsi 30 _ _ _ H30 Hnan) as Hr.
    assert (Hmax : forall y, is_nan y = false ->
              is_nan (Math_max 0 y) = false /\ (0 <=? Math_max 0 y)%float = true).
    { intros y Hy. split; [| now apply Math_max_0_nonneg].
      apply nonneg_not_nan. now apply Math_max_0_nonneg. }
    unfold Scorer.calculateMomentumScore, gtb.
    destruct dir.
    + destruct (rsi <? 30)%float; [now split |].
      destruct (rsi <? 40)%float; [now split |].
      destruct (70 <? rsi)%float; [now split |].
      now apply Hmax.
    + destruct (70 <? rsi)%float; [now split |].
      destruct (60 <? rsi)%float; [now split |].
      destruct (rsi <? 30)%float; [now split |].
      now apply Hmax.
Qed.

(** X10.  analyzeTrade returns on every input, its overall score is NaN, and so its
    recommendation is always the lowest tier of the direction: all four
    [score >= ...] tests of generateRecommendation fail on NaN. *)
Theorem analyzeTrade_recommendation_lowest_tier (params : Scorer.TradeParams) :
  exists r,
    Scorer.analyzeTrade params = Some r
    /\ Scorer.overallScore r = nan
    /\ Scorer.recommendation r
       = match Scorer.param_direction params with
         | Some short => "Strong Avoid Short"%string
         | _ => "Strong Avoid Long"%string
         end.
Proof.
  unfold Scorer.analyzeTrade.
  destruct (calculateBollingerBands_default_total (Scorer.prices params))
    as [bb ->].
  eexists. split; [reflexivity |].
  cbn [Scorer.overallScore Scorer.recommendation].
  rewrite calculateTradeSuccessLikelihood_five_arguments.
  split; [reflexivity |].
  now destruct (Scorer.param_direction params) as [[] |].
Qed.

(** ** calculateBollingerBands: when it throws, and what it returns *)

Section BandsShape.

Import Indicators.

Lemma bands_loop_lengths (n i period : nat) (stdDev : float)
    (prices : list float) (bands result : Bands) :
  bands_loop n i period stdDev prices bands = Some result ->
  length (upper result) = (length (upper bands) + n)%nat
  /\ length (middle result) = (length (middle bands) + n)%nat
  /\ length (lower result) = (length (lower bands) + n)%nat
  /\ length (bandWidths result) = (length (bandWidths bands) + n)%nat.
Proof.
  revert i bands; induction n as [| n IH]; intros i bands Hloop.
  - cbn in Hloop. injection Hloop as <-. repeat split; lia.
  - cbn [bands_loop] in Hloop.
    destruct (sum1 _) as [total |]; [| discriminate].
    destruct (sum1 _) as [totalSq |]; [| discriminate].
    apply IH in Hloop. cbn [upper middle lower bandWidths] in Hloop.
    rewrite !length_app in Hloop. cbn [length] in Hloop.
    repeat split; lia.
Qed.

End BandsShape.

(** X11.  calculateBollingerBands throws exactly when the period is 0 (the first
    window is empty and [reduce] has no initial value); otherwise it returns
    four arrays of the same length, one entry per full window:
    prices.length + 1 - period, that is none when the prices are fewer than
    the period. *)
Theorem calculateBollingerBands_shape
    (prices : list float) (period : nat) (stdDev : float) (lookback : nat) :
  match Indicators.calculateBollingerBands prices period stdDev lookback with
  | None => period = 0%nat
  | Some bands =>
      (1 <= period)%nat
      /\ length (Indicators.upper bands) = (length prices + 1 - period)%nat
      /\ length (Indicators.middle bands) = (length prices + 1 - period)%nat
      /\ length (Indicators.lower bands) = (length prices + 1 - period)%nat
      /\ length (Indicators.bandWidths bands)
         = (length prices + 1 - period)%nat
  end.
Proof.
  unfold Indicators.calculateBollingerBands.
  destruct period as [| p]; [reflexivity |].
  destruct (bands_loop_total (length prices + 1 - S p) (S p - 1) (S p) stdDev
              prices (Indicators.mkBands [] [] [] [] 0))
    as [bands Hloop]; [lia | lia |].
  rewrite Hloop. apply bands_loop_lengths in Hloop.
  cbn [Indicators.upper Indicators.middle Indicators.lower
       Indicators.bandWidths length] in *.
  split; [lia | exact Hloop].
Qed.

Lemma bands_without_window (prices : list float) (p : nat)
                            (stdDev : float) (lookback : nat) :
  (length prices <= p)%nat ->
  Indicators.calculateBollingerBands prices (S p) stdDev lookback
  = Some (Indicators.mkBands [] [] [] [] nan).
Proof.
  intros Hshort. unfold Indicators.calculateBollingerBands.
  replace (length prices + 1 - S p)%nat with 0%nat by lia.
  cbn [Indicators.bands_loop Indicators.upper Indicators.middle
       Indicators.lower Indicators.bandWidths].
  replace (slice_last lookback (@nil float)) with (@nil float)
    by (now destruct lookback).
  reflexivity.
Qed.

(** X12.  With fewer prices than the period (and a period of at least 1) there is
    no band at all, and the average band width is 0/0, NaN. *)
Theorem calculateBollingerBands_short_history
    (prices : list float) (period : nat) (stdDev : float) (lookback : nat) :
  (1 <= period)%nat -> (length prices < period)%nat ->
  Indicators.calculateBollingerBands prices period stdDev lookback
  = Some (Indicators.mkBands [] [] [] [] nan).
Proof.
  intros Hp Hshort. destruct period as [| p]; [lia |].
  apply bands_without_window. lia.
Qed.

Lemma calculateBollingerBands_short_history_witness :
  (1 <= 20)%nat /\ (length Scenarios.sample_prices < 20)%nat
  /\ Indicators.calculateBollingerBands Scenarios.sample_prices 20 2 100
     = Some (Indicators.mkBands [] [] [] [] nan).
Proof.
  split; [lia |]. split; [cbn; lia |].
  apply (calculateBollingerBands_short_history Scenarios.sample_prices 20 2 100).
  - lia.
  - cbn. lia.
Defined.

(** X13.  On a history of fewer than 20 prices analyzeTrade reports the neutral
    volatility score 50: there is no band, the average band width is NaN, and
    [!bb.averageBandWidth] holds. *)
Theorem analyzeTrade_short_history_volatility (params : Scorer.TradeParams) :
  (length (Scorer.prices params) < 20)%nat ->
  exists r,
    Scorer.analyzeTrade params = Some r /\ Scorer.volatilityScore r = 50%float.
Proof.
  intros Hshort. unfold Scorer.analyzeTrade.
  rewrite (bands_without_window (Scorer.prices params) 19) by lia.
  eexists. split; [reflexivity |]. reflexivity.
Qed.

Lemma analyzeTrade_short_history_volatility_witness :
  let params :=
    Scorer.mkTradeParams Scenarios.sample_prices 101 105 99 (Some short) in
  (length (Scorer.prices params) < 20)%nat
  /\ exists r,
       Scorer.analyzeTrade params = Some r
       /\ Scorer.volatilityScore r = 50%float.
Proof.
  intros params. split; [cbn; lia |].
  apply (analyzeTrade_short_history_volatility params). cbn. lia.
Defined.

(** ** calculateRSI *)

Section RSIFacts.

Import Indicators.
Local Open Scope float_scope.

Lemma smooth_loop_length (n i : nat) (period : float)
    (gains losses : list float) (avgGain avgLoss : float) (rsi : list float) :
  length (smooth_loop n i period gains losses avgGain avgLoss rsi)
  = (length rsi + n)%nat.
Proof.
  revert i avgGain avgLoss rsi; induction n as [| n IH];
    intros i avgGain avgLoss rsi; cbn [smooth_loop]; [lia |].
  rewrite IH, length_app. cbn [length]. lia.
Qed.

Lemma lt_0_opp_nonneg (c : float) : (c <? 0) = true -> (0 <=? - c) = true.
Proof.
  rewrite ltb_spec, leb_0_spec, opp_spec.
  change (Prim2SF 0) with (S754_zero false).
  now destruct (Prim2SF c) as [s | [] | | [] m e].
Qed.

Lemma gt_0_not_lt_0 (c : float) : (0 <? c) = true -> (c <? 0) = false.
Proof.
  rewrite !ltb_spec. change (Prim2SF 0) with (S754_zero false).
  now destruct (Prim2SF c) as [s | [] | | [] m e].
Qed.

Lemma gain_loss_of_change (change : float) :
  gain_loss_day (if gtb change 0 then change else 0)
                (if change <? 0 then - change else 0).
Proof.
  unfold gain_loss_day, gtb.
  destruct (0 <? change) eqn:Hpos.
  - rewrite (gt_0_not_lt_0 _ Hpos). repeat split; auto using ltb_leb.
  - destruct (change <? 0) eqn:Hneg; repeat split; auto using lt_0_opp_nonneg.
Qed.

Lemma changes_loop_days (n i : nat) (prices gains losses : list float) :
  Forall2 gain_loss_day gains losses ->
  Forall2 gain_loss_day (fst (changes_loop n i prices gains losses))
                        (snd (changes_loop n i prices gains losses))
  /\ length (fst (changes_loop n i prices gains losses))
     = (length gains + n)%nat.
Proof.
  revert i gains losses; induction n as [| n IH]; intros i gains losses Hall;
    cbn [changes_loop].
  - split; [exact Hall | cbn; lia].
  - destruct (IH (S i) _ _
                (Forall2_app Hall
                   (Forall2_cons _ _
                      (gain_loss_of_change
                         (ToNumber (num_at prices i)
                          - ToNumber (num_at prices (i - 1))))
                      (Forall2_nil _)))) as [Hdays Hlen].
    split; [exact Hdays |].
    rewrite Hlen, length_app. cbn [length]. lia.
Qed.

End RSIFacts.

(** X14.  calculateRSI returns max(1, prices.length - period) values, whatever the
    prices: one seed value (also for an empty or too short input) and one
    more per price beyond the first period + 1. *)
Theorem calculateRSI_length (prices : list float) (period : nat) :
  length (Indicators.calculateRSI prices period)
  = Nat.max 1 (length prices - period).
Proof.
  unfold Indicators.calculateRSI.
  destruct (Indicators.changes_loop _ _ _ _ _) as [gains losses].
  rewrite smooth_loop_length. cbn [length]. lia.
Qed.

(** X15.  The gains and losses that calculateRSI derives from any price list, NaN
    prices included: one pair per day after the first, each a number that is
    at least 0, and never both different from 0 on the same day. *)
Theorem calculateRSI_gains_and_losses (prices : list float) :
  let days := Indicators.changes_loop (length prices - 1) 1 prices [] [] in
  length (fst days) = (length prices - 1)%nat
  /\ length (snd days) = (length prices - 1)%nat
  /\ Forall2 gain_loss_day (fst days) (snd days).
Proof.
  cbn zeta.
  destruct (changes_loop_days (length prices - 1) 1 prices [] []
              (Forall2_nil _)) as [Hdays Hlen].
  cbn [length] in Hlen.
  split; [exact Hlen |]. split; [| exact Hdays].
  rewrite <- (Forall2_length Hdays). exact Hlen.
Qed.

Section Saturation.

Local Open Scope float_scope.

Lemma is_zero_spec (x : float) :
  is_zero x = match Prim2SF x with S754_zero _ => true | _ => false end.
Proof.
  unfold is_zero. rewrite eqb_spec. change (Prim2SF zero) with (S754_zero false).
  now destruct (Prim2SF x) as [s | [] | | [] m e].
Qed.

(** A number other than NaN and 0 divided by a zero is an infinity. *)
Lemma div_by_zero (g l : float) :
  is_zero l = true -> is_nan g = false -> is_zero g = false ->
  g / l = infinity \/ g / l = neg_infinity.
Proof.
  rewrite !is_zero_spec, is_nan_spec. intros Hl Hnan Hg.
  assert (H : exists b, Prim2SF (g / l) = S754_infinity b).
  { rewrite div_spec. unfold SF64div.
    destruct (Prim2SF l) as [sl | | |]; try discriminate.
    destruct (Prim2SF g) as [sg | sg | | sg mg eg]; try discriminate;
      cbn [SFdiv]; eauto. }
  destruct H as [[] H]; [right | left]; apply Prim2SF_inj; now rewrite H.
Qed.

(** A zero divided by a number other than NaN and 0 is a zero. *)
Lemma zero_div (g l : float) :
  is_zero g = true -> is_nan l = false -> is_zero l = false ->
  g / l = 0 \/ g / l = neg_zero.
Proof.
  rewrite !is_zero_spec, is_nan_spec. intros Hg Hnan Hl.
  assert (H : exists b, Prim2SF (g / l) = S754_zero b).
  { rewrite div_spec. unfold SF64div.
    destruct (Prim2SF g) as [sg | | |]; try discriminate.
    destruct (Prim2SF l) as [sl | sl | | sl ml el]; try discriminate;
      cbn [SFdiv]; eauto. }
  destruct H as [[] H]; [right | left]; apply Prim2SF_inj; now rewrite H.
Qed.

Lemma zero_div_zero (g l : float) :
  is_zero g = true -> is_zero l = true -> g / l = nan.
Proof.
  rewrite !is_zero_spec. intros Hg Hl. apply Prim2SF_inj.
  rewrite div_spec. unfold SF64div.
  destruct (Prim2SF g) as [sg | | |]; try discriminate.
  now destruct (Prim2SF l) as [sl | | |].
Qed.

End Saturation.

(** X16.  The unguarded divisions of the RSI formula at their edges.  With a zero
    average loss the value is 100 for any average gain other than 0 and NaN
    (the quotient is an infinity), and NaN otherwise; with a zero average
    gain it is 0 for any average loss other than 0 and NaN, and NaN
    otherwise. *)
Theorem rsi_of_zero_averages (avgGain avgLoss : float) :
  (is_zero avgLoss = true ->
   Indicators.rsi_of avgGain avgLoss
   = if is_nan avgGain || is_zero avgGain then nan else 100%float)
  /\ (is_zero avgGain = true ->
      Indicators.rsi_of avgGain avgLoss
      = if is_nan avgLoss || is_zero avgLoss then nan else 0%float).
Proof.
  unfold Indicators.rsi_of. split; intros Hz.
  - destruct (is_nan avgGain) eqn:Hnan.
    + apply is_nan_true in Hnan. subst avgGain. cbn [orb].
      replace (nan / avgLoss)%float with nan; [reflexivity |].
      symmetry. apply Prim2SF_inj. now rewrite div_spec.
    + cbn [orb]. destruct (is_zero avgGain) eqn:Hg.
      * rewrite (zero_div_zero avgGain avgLoss Hg Hz). reflexivity.
      * destruct (div_by_zero avgGain avgLoss Hz Hnan Hg) as [-> | ->];
          reflexivity.
  - destruct (is_nan avgLoss) eqn:Hnan.
    + apply is_nan_true in Hnan. subst avgLoss. cbn [orb].
      replace (avgGain / nan)%float with nan; [reflexivity |].
      symmetry. apply Prim2SF_inj. rewrite div_spec.
      change (Prim2SF nan) with S754_nan. now destruct (Prim2SF avgGain).
    + cbn [orb]. destruct (is_zero avgLoss) eqn:Hl.
      * rewrite (zero_div_zero avgGain avgLoss Hz Hl). reflexivity.
      * destruct (zero_div avgGain avgLoss Hz Hnan Hl) as [-> | ->];
          reflexivity.
Qed.

Lemma rsi_of_zero_averages_witness :
  (is_zero 0 = true /\ Indicators.rsi_of 3 0 = 100%float)
  /\ (is_zero 0 = true /\ Indicators.rsi_of 0 3 = 0%float).
Proof.
  split.
  - split; [reflexivity |].
    exact (proj1 (rsi_of_zero_averages 3 0) eq_refl).
  - split; [reflexivity |].
    exact (proj2 (rsi_of_zero_averages 0 3) eq_refl).
Defined.

(** ** calculateEMA on a constant series *)

Section EMAConstant.

Import Indicators.
Local Open Scope float_scope.

Lemma finite_spec (x : float) :
  finite x = true ->
  match Prim2SF x with
  | S754_zero _ | S754_finite _ _ _ => True
  | _ => False
  end.
Proof.
  unfold finite, is_infinity. rewrite is_nan_spec, eqb_spec, abs_spec.
  change (Prim2SF infinity) with (S754_infinity false).
  destruct (Prim2SF x) as [s | s | | s m e]; cbn; intros H;
    try exact I; discriminate H.
Qed.

(** One smoothing step leaves a finite non-zero price unchanged when the
    previous value is that same price. *)
Lemma ema_step_fixed (c multiplier : float) :
  finite c = true -> is_zero c = false -> finite multiplier = true ->
  (c - c) * multiplier + c = c.
Proof.
  intros Hc Hnz Hm. apply finite_spec in Hc, Hm. rewrite is_zero_spec in Hnz.
  apply Prim2SF_inj. rewrite add_spec, mul_spec, sub_spec.
  destruct (Prim2SF c) as [s | s | | s mc ec]; try contradiction;
    try discriminate.
  unfold SF64sub. cbn [SFsub]. rewrite Z.sub_diag. cbn [binary_normalize].
  destruct (Prim2SF multiplier) as [sm | sm | | sm mm em]; try contradiction;
    reflexivity.
Qed.

Lemma ema_loop_constant (c multiplier : float) (N n i : nat) :
  (c - c) * multiplier + c = c ->
  (1 <= i)%nat -> (i + n <= N)%nat ->
  ema_loop n i (repeat c N) multiplier (repeat (Num c) i)
  = repeat (Num c) (i + n).
Proof.
  intros Hstep. revert i; induction n as [| n IH]; intros i Hi Hn;
    cbn [ema_loop].
  - now rewrite Nat.add_0_r.
  - unfold val_at, num_at.
    rewrite !nth_error_repeat by lia. cbn [ToNumber]. rewrite Hstep.
    rewrite <- repeat_cons.
    change (Num c :: repeat (Num c) i) with (repeat (Num c) (S i)).
    rewrite IH by lia. f_equal. lia.
Qed.

End EMAConstant.

(** X17.  A constant series is a fixed point of calculateEMA: for a finite non-zero
    price and a finite smoothing factor 2/(period+1), the EMA of that price
    repeated is that price at every position. *)
Theorem calculateEMA_constant_series (c period : float) (n : nat) :
  finite c = true -> is_zero c = false ->
  finite (2 / (period + 1))%float = true ->
  Indicators.calculateEMA (repeat c (S n)) period = repeat (Num c) (S n).
Proof.
  intros Hc Hnz Hm. unfold Indicators.calculateEMA.
  rewrite repeat_length.
  change [num_at (repeat c (S n)) 0] with (repeat (Num c) 1).
  rewrite (ema_loop_constant c _ (S n) (S n - 1) 1
             (ema_step_fixed c _ Hc Hnz Hm)) by lia.
  f_equal. lia.
Qed.

Lemma calculateEMA_constant_series_witness :
  finite 100 = true /\ is_zero 100 = false
  /\ finite (2 / (20 + 1))%float = true
  /\ Indicators.calculateEMA (repeat 100%float 16) 20
     = repeat (Num 100) 16.
Proof.
  repeat (split; [reflexivity |]).
  apply (calculateEMA_constant_series 100 20 15); reflexivity.
Defined.

(** ** NaN scores reach the probabilities *)

Section NaNPropagation.

Local Open Scope float_scope.

Lemma add_nan_l (x : float) : nan + x = nan.
Proof. now rewrite add_comm, add_nan_r. Qed.

Lemma mul_nan_l (x : float) : nan * x = nan.
Proof.
  apply Prim2SF_inj. now rewrite mul_spec.
Qed.

Lemma raw_of_nan_base (a b c d e f : float) :
  (nan * a * b * c, (100 - nan) * d * e * f) = (nan, nan).
Proof.
  change (100 - nan) with nan. now rewrite !mul_nan_l.
Qed.

End NaNPropagation.

(** A NaN base probability makes both probabilities NaN. *)
Lemma probabilities_of_nan_base
    (currentPrice takeProfit stopLoss : float) (dir : direction)
    (trendScore momentumScore volatilityScore : float) :
  (trendScore * 0.4 + momentumScore * 0.4
   + (100 - volatilityScore) * 0.2)%float = nan ->
  Scorer.calculateTargetProbabilities currentPrice takeProfit stopLoss dir
    trendScore momentumScore volatilityScore
  = Scorer.mkProbabilities nan nan.
Proof.
  intros Hbase.
  unfold Scorer.calculateTargetProbabilities, Scorer.rawProbabilities.
  rewrite Hbase.
  destruct dir; now rewrite raw_of_nan_base.
Qed.

(** X18.  If the trend, the momentum or the volatility score is NaN, both
    probabilities returned by calculateTargetProbabilities are NaN, whatever
    the prices and the direction. *)
Theorem calculateTargetProbabilities_nan_score
    (currentPrice takeProfit stopLoss : float) (dir : direction)
    (trendScore momentumScore volatilityScore : float) :
  is_nan trendScore || is_nan momentumScore || is_nan volatilityScore = true ->
  Scorer.calculateTargetProbabilities currentPrice takeProfit stopLoss dir
    trendScore momentumScore volatilityScore
  = Scorer.mkProbabilities nan nan.
Proof.
  intros Hnan. apply probabilities_of_nan_base.
  apply orb_prop in Hnan as [Hnan | Hv];
    [apply orb_prop in Hnan as [Ht | Hm] |].
  - apply is_nan_true in Ht. subst trendScore.
    change (nan * 0.4)%float with nan. now rewrite !add_nan_l.
  - apply is_nan_true in Hm. subst momentumScore.
    change (nan * 0.4)%float with nan. now rewrite add_nan_r, add_nan_l.
  - apply is_nan_true in Hv. subst volatilityScore.
    change ((100 - nan) * 0.2)%float with nan. now rewrite add_nan_r.
Qed.

Lemma calculateTargetProbabilities_nan_score_witness :
  is_nan 50 || is_nan nan || is_nan 50 = true
  /\ Scorer.calculateTargetProbabilities 100 110 95 long 50 nan 50
     = Scorer.mkProbabilities nan nan.
Proof.
  split; [reflexivity |].
  apply (calculateTargetProbabilities_nan_score 100 110 95 long 50 nan 50).
  reflexivity.
Defined.

(** ** calculateRSI and analyzeTrade on a constant series *)

Section RSIConstant.

Import Indicators.
Local Open Scope float_scope.

Lemma sub_self (c : float) : finite c = true -> c - c = 0.
Proof.
  intros Hc. apply finite_spec in Hc. apply Prim2SF_inj. rewrite sub_spec.
  change (Prim2SF 0) with (S754_zero false).
  destruct (Prim2SF c) as [s | s | | s mc ec]; try contradiction.
  - now destruct s.
  - unfold SF64sub. cbn [SFsub]. now rewrite Z.sub_diag.
Qed.

Lemma changes_loop_constant (c : float) (N n i : nat)
                            (gains losses : list float) :
  finite c = true -> (1 <= i)%nat -> (i + n <= N)%nat ->
  changes_loop n i (repeat c N) gains losses
  = (gains ++ repeat 0 n, losses ++ repeat 0 n).
Proof.
  intros Hc. revert i gains losses; induction n as [| n IH];
    intros i gains losses Hi Hn; cbn [changes_loop repeat].
  - now rewrite !app_nil_r.
  - unfold num_at. rewrite !nth_error_repeat by lia. cbn [ToNumber].
    rewrite (sub_self c Hc).
    change (if gtb 0 0 then 0 else 0) with 0.
    change (if 0 <? 0 then - 0 else 0) with 0.
    rewrite IH by lia. now rewrite <- !app_assoc.
Qed.

Lemma sum_from_zeros (k : nat) : sum_from 0 (repeat 0 k) = 0.
Proof. unfold sum_from. induction k as [| k IH]; [reflexivity | exact IH]. Qed.

Lemma firstn_repeat_min {A : Type} (x : A) (k n : nat) :
  firstn k (repeat x n) = repeat x (Nat.min k n).
Proof.
  revert n; induction k as [| k IH]; intros [| n]; cbn; try reflexivity.
  now rewrite IH.
Qed.

Lemma smooth_loop_zeros (k n i : nat) (rsi : list float) :
  (n = 0 \/ i + n <= k)%nat ->
  smooth_loop n i 14 (repeat 0 k) (repeat 0 k) 0 0 rsi = rsi ++ repeat nan n.
Proof.
  revert i rsi; induction n as [| n IH]; intros i rsi Hn;
    cbn [smooth_loop repeat].
  - now rewrite app_nil_r.
  - unfold num_at. rewrite !nth_error_repeat by lia. cbn [ToNumber].
    change ((0 * (14 - 1) + 0) / 14) with 0.
    change (rsi_of 0 0) with nan.
    rewrite IH by lia. now rewrite <- app_assoc.
Qed.

End RSIConstant.

Lemma calculateRSI_constant_nonempty (c : float) (N : nat) :
  finite c = true ->
  Indicators.calculateRSI (repeat c (S N)) 14 = repeat nan (S (N - 14)).
Proof.
  intros Hc. unfold Indicators.calculateRSI. rewrite repeat_length.
  rewrite (changes_loop_constant c (S N) (S N - 1) 1 [] [] Hc) by lia.
  cbn [app]. unfold slice. cbn [skipn]. rewrite firstn_repeat_min.
  rewrite sum_from_zeros.
  change (of_nat 14) with 14%float.
  change (0 / 14)%float with 0%float.
  change (Indicators.rsi_of 0 0) with nan.
  rewrite smooth_loop_zeros by lia.
  change [nan] with (repeat nan 1). rewrite <- repeat_app.
  f_equal. lia.
Qed.

(** X19.  On a constant series of any finite price and any length calculateRSI
    (with its default period 14) returns NaN at every position: no day has a
    gain or a loss, both averages are 0, and 0/0 is NaN. *)
Theorem calculateRSI_constant_series (c : float) (N : nat) :
  finite c = true ->
  Indicators.calculateRSI (repeat c N) 14 = repeat nan (Nat.max 1 (N - 14)).
Proof.
  intros Hc. destruct N as [| N]; [reflexivity |].
  rewrite (calculateRSI_constant_nonempty c N Hc).
  f_equal. lia.
Qed.

Lemma calculateRSI_constant_series_witness :
  finite 100 = true
  /\ Indicators.calculateRSI (repeat 100%float 30) 14
     = repeat nan (Nat.max 1 (30 - 14)).
Proof.
  split; [reflexivity |].
  apply (calculateRSI_constant_series 100 30). reflexivity.
Defined.

(** X20.  On a flat history (any finite price, any length) analyzeTrade reports a
    NaN momentum score, a NaN market score and NaN for both probabilities,
    whatever the entry price, the targets and the direction. *)
Theorem analyzeTrade_flat_history
    (c : float) (N : nat) (currentPrice takeProfit stopLoss : float)
    (dir : option direction) :
  finite c = true ->
  exists r,
    Scorer.analyzeTrade
      (Scorer.mkTradeParams (repeat c N) currentPrice takeProfit stopLoss dir)
    = Some r
    /\ Scorer.momentumScore r = nan
    /\ Scorer.marketScore r = nan
    /\ Scorer.takeProfitProbability r = nan
    /\ Scorer.stopLossProbability r = nan.
Proof.
  intros Hc. unfold Scorer.analyzeTrade.
  cbn [Scorer.prices Scorer.param_direction Scorer.currentPrice
       Scorer.takeProfit Scorer.stopLoss].
  destruct (calculateBollingerBands_default_total (repeat c N)) as [bb ->].
  set (d := match dir with Some d => d | None => long end).
  assert (Hlast : ToNumber (num_last (Indicators.calculateRSI (repeat c N) 14))
                  = nan).
  { destruct N as [| N]; [reflexivity |].
    rewrite (calculateRSI_constant_nonempty c N Hc).
    unfold num_last, num_at. cbn [repeat].
    change (nan :: repeat nan (N - 14)) with (repeat nan (S (N - 14))).
    rewrite repeat_length, nth_error_repeat by lia. reflexivity. }
  rewrite Hlast.
  assert (Hmom : Scorer.calculateMomentumScore nan d = nan)
    by (now destruct d).
  rewrite Hmom.
  eexists. split; [reflexivity |].
  cbn [Scorer.momentumScore Scorer.marketScore Scorer.takeProfitProbability
       Scorer.stopLossProbability].
  rewrite probabilities_of_nan_base
    by (change (nan * 0.4)%float with nan; now rewrite add_nan_r, add_nan_l).
  repeat split.
  change (0.3 * nan)%float with nan. now rewrite add_nan_r, add_nan_l.
Qed.

Lemma analyzeTrade_flat_history_witness :
  finite 100 = true
  /\ exists r,
       Scorer.analyzeTrade
         (Scorer.mkTradeParams (repeat 100%float 30) 100 110 95 (Some long))
       = Some r
       /\ Scorer.momentumScore r = nan
       /\ Scorer.marketScore r = nan
       /\ Scorer.takeProfitProbability r = nan
       /\ Scorer.stopLossProbability r = nan.
Proof.
  split; [reflexivity |].
  apply (analyzeTrade_flat_history 100 30 100 110 95 (Some long)).
  reflexivity.
Defined.

(** ** getCoinData: the conversion of price points into daily candles *)

Section Conversion.

Import Backtest CoinData.
Local Open Scope float_scope.

Variable getUTCDate : float -> float.

(** The candles of a state once the last candle is pushed. *)
Let finish (st : Conversion) : list OHLCData :=
  match currentCandle st with
  | Some candle => ohlcData st ++ [candle]
  | None => ohlcData st
  end.

Let run (st : Conversion) (prices : list (float * float)) : Conversion :=
  fold_left (convert_point getUTCDate) prices st.

Lemma convert_point_current (st : Conversion) (point : float * float) :
  exists candle,
    currentCandle (convert_point getUTCDate st point) = Some candle
    /\ close candle = snd point.
Proof.
  destruct point as [timestamp price]. unfold convert_point.
  destruct (currentCandle st) as [candle |];
    [destruct (currentDay st =? getUTCDate timestamp) |]; cbn; eauto.
Qed.

Lemma convert_point_length (st : Conversion) (point : float * float) :
  (length (finish (convert_point getUTCDate st point))
   <= S (length (finish st)))%nat.
Proof.
  destruct point as [timestamp price]. unfold finish, convert_point.
  destruct (currentCandle st) as [candle |];
    [destruct (currentDay st =? getUTCDate timestamp) |]; cbn;
    rewrite ?length_app; cbn; lia.
Qed.

Lemma run_length (prices : list (float * float)) (st : Conversion) :
  (length (finish (run st prices)) <= length (finish st) + length prices)%nat.
Proof.
  revert st; induction prices as [| point rest IH]; intros st; cbn; [lia |].
  specialize (IH (convert_point getUTCDate st point)).
  pose proof (convert_point_length st point). unfold run in IH. lia.
Qed.

Lemma run_last (prices : list (float * float)) (st : Conversion)
               (point : float * float) :
  exists candle,
    currentCandle (run st (prices ++ [point])) = Some candle
    /\ close candle = snd point.
Proof.
  unfold run. rewrite fold_left_app. cbn. apply convert_point_current.
Qed.

(** The first candle of a state keeps its time and open through a step. *)
Lemma convert_point_first (st : Conversion) (point : float * float)
                          (first : OHLCData) :
  hd_error (finish st) = Some first ->
  exists first',
    hd_error (finish (convert_point getUTCDate st point)) = Some first'
    /\ time first' = time first /\ open first' = open first.
Proof.
  destruct point as [timestamp price]. unfold finish, convert_point.
  destruct (currentCandle st) as [candle |].
  - destruct (currentDay st =? getUTCDate timestamp); cbn;
      destruct (ohlcData st) as [| c0 done]; cbn; intros H;
      injection H as <-; eauto.
  - cbn. destruct (ohlcData st) as [| c0 done]; cbn; intros H;
      [discriminate | injection H as <-; eauto].
Qed.

Lemma run_first (prices : list (float * float)) (st : Conversion)
                (first : OHLCData) :
  hd_error (finish st) = Some first ->
  exists first',
    hd_error (finish (run st prices)) = Some first'
    /\ time first' = time first /\ open first' = open first.
Proof.
  revert st first; induction prices as [| point rest IH]; intros st first H.
  - cbn. eauto.
  - destruct (convert_point_first st point first H) as (f1 & H1 & Ht & Ho).
    destruct (IH _ _ H1) as (f2 & H2 & Ht2 & Ho2).
    exists f2. split; [exact H2 | split; congruence].
Qed.

(** With one point per day every step closes the candle of the day before. *)
Lemma run_one_point_per_day (prices : list (float * float))
    (done : list OHLCData) (timestamp price : float) :
  one_point_per_day getUTCDate ((timestamp, price) :: prices) ->
  finish (run (mkConversion done (getUTCDate timestamp)
                 (Some (open_candle timestamp price))) prices)
  = done ++ open_candle timestamp price
         :: map (fun point => open_candle (fst point) (snd point)) prices.
Proof.
  revert done timestamp price;
    induction prices as [| [timestamp' price'] rest IH];
    intros done timestamp price Hdays.
  - reflexivity.
  - destruct Hdays as [Hday Hrest]. cbn [fst] in Hday.
    cbn [run fold_left convert_point currentCandle currentDay ohlcData].
    rewrite Hday. cbn [ohlcData].
    change (fold_left (convert_point getUTCDate) rest ?st) with (run st rest).
    rewrite (IH _ _ _ Hrest). cbn [map fst snd].
    now rewrite <- app_assoc.
Qed.

End Conversion.

(** X21.  The conversion never returns more candles than it is given price points,
    and it returns no candle only for no point. *)
Theorem toOHLC_length (getUTCDate : float -> float)
                      (prices : list (float * float)) :
  (length (CoinData.toOHLC getUTCDate prices) <= length prices)%nat
  /\ (CoinData.toOHLC getUTCDate prices = [] <-> prices = []).
Proof.
  split.
  - apply (run_length getUTCDate prices (CoinData.mkConversion [] (-1) None)).
  - split; [| now intros ->].
    induction prices as [| point front _] using rev_ind; [reflexivity |].
    intros Hnil. exfalso. unfold CoinData.toOHLC in Hnil.
    destruct (run_last getUTCDate front
                (CoinData.mkConversion [] (-1) None) point)
      as (candle & Hcur & _).
    cbn zeta in Hnil. rewrite Hcur in Hnil.
    now destruct (CoinData.ohlcData _).
Qed.

(** X22.  For a non-empty list of price points, the first candle opens at the
    first price, at the first timestamp in whole seconds, and the last
    candle closes at the last price (the price the application then shows as
    the current one). *)
Theorem toOHLC_first_open_last_close
    (getUTCDate : float -> float) (timestamp price : float)
    (rest : list (float * float)) :
  let prices := (timestamp, price) :: rest in
  exists first body final,
    hd_error (CoinData.toOHLC getUTCDate prices) = Some first
    /\ Backtest.open first = price
    /\ Backtest.time first = CoinData.Math_floor (timestamp / 1000)%float
    /\ CoinData.toOHLC getUTCDate prices = body ++ [final]
    /\ Backtest.close final = snd (last prices (timestamp, price)).
Proof.
  cbn zeta.
  destruct (run_first getUTCDate rest
              (CoinData.mkConversion [] (getUTCDate timestamp)
                 (Some (CoinData.open_candle timestamp price)))
              (CoinData.open_candle timestamp price) eq_refl)
    as (first & Hfirst & Htime & Hopen).
  destruct (exists_last (l := (timestamp, price) :: rest)) as (front & point & Hsplit);
    [discriminate |].
  destruct (run_last getUTCDate front (CoinData.mkConversion [] (-1) None)
              point) as (final & Hcur & Hclose).
  rewrite <- Hsplit in Hcur.
  exists first, (CoinData.ohlcData
                   (fold_left (CoinData.convert_point getUTCDate)
                      ((timestamp, price) :: rest)
                      (CoinData.mkConversion [] (-1) None))), final.
  split; [exact Hfirst |]. split; [exact Hopen |]. split; [exact Htime |].
  split.
  - unfold CoinData.toOHLC. cbn zeta. now rewrite Hcur.
  - rewrite Hclose, Hsplit. now rewrite last_last.
Qed.

(** X23.  When consecutive price points fall on different days of the month (daily
    data), the conversion returns exactly one candle per point, and each
    candle is flat: open = high = low = close = the point's price. *)
Theorem toOHLC_one_point_per_day
    (getUTCDate : float -> float) (prices : list (float * float)) :
  one_point_per_day getUTCDate prices ->
  CoinData.toOHLC getUTCDate prices
  = map (fun point => CoinData.open_candle (fst point) (snd point)) prices.
Proof.
  destruct prices as [| [timestamp price] rest]; [reflexivity |].
  intros Hdays. unfold CoinData.toOHLC.
  cbn [fold_left CoinData.convert_point CoinData.currentCandle].
  apply (run_one_point_per_day getUTCDate rest [] timestamp price Hdays).
Qed.

Lemma toOHLC_one_point_per_day_witness :
  let day := fun ts => CoinData.Math_floor (ts / 86400000)%float in
  let prices := [(0, 10); (86400000, 11); (172800000, 9)]%float in
  one_point_per_day day prices
  /\ CoinData.toOHLC day prices
     = map (fun point => CoinData.open_candle (fst point) (snd point)) prices.
Proof.
  intros day prices.
  assert (Hdays : one_point_per_day day prices)
    by (vm_compute; repeat split).
  split; [exact Hdays |].
  apply (toOHLC_one_point_per_day day prices Hdays).
Defined.

(** ** The order of binary64 numbers, and Math.max / Math.min *)

Section FloatTotalOrder.

Local Open Scope float_scope.

Lemma SFcompare_antisym (x y : spec_float) :
  SFcompare y x = option_map CompOpp (SFcompare x y).
Proof.
  destruct x as [sx | sx | | sx mx ex], y as [sy | sy | | sy my ey];
    try reflexivity; try (destruct sx; reflexivity);
    try (destruct sy; reflexivity); try (destruct sx, sy; reflexivity).
  unfold SFcompare.
  change (Pos.compare_cont Eq my mx) with (Pos.compare my mx).
  change (Pos.compare_cont Eq mx my) with (Pos.compare mx my).
  rewrite (Z.compare_antisym ex ey), (Pos.compare_antisym mx my).
  destruct sx, sy; cbn; try reflexivity;
    destruct (ex ?= ey)%Z; cbn; try reflexivity;
    now destruct (mx ?= my)%positive.
Qed.

Lemma SFcompare_trans_le (x y z : spec_float) :
  SFleb x y = true -> SFleb y z = true -> SFleb x z = true.
Proof.
  unfold SFleb.
  destruct x as [sx | sx | | sx mx ex], y as [sy | sy | | sy my ey],
    z as [sz | sz | | sz mz ez];
    try (intros H1 H2; discriminate H1 || discriminate H2 || reflexivity);
    try (destruct sx, sy, sz; intros H1 H2;
         discriminate H1 || discriminate H2 || reflexivity).
  unfold SFcompare.
  change (Pos.compare_cont Eq mx my) with (Pos.compare mx my).
  change (Pos.compare_cont Eq my mz) with (Pos.compare my mz).
  change (Pos.compare_cont Eq mx mz) with (Pos.compare mx mz).
  destruct sx, sy, sz; intros H1 H2;
    try (discriminate H1 || discriminate H2 || reflexivity);
    destruct (Z.compare_spec ex ey) as [He1 | He1 | He1];
    try discriminate H1;
    destruct (Z.compare_spec ey ez) as [He2 | He2 | He2];
    try discriminate H2;
    destruct (Z.compare_spec ex ez) as [He3 | He3 | He3];
    try reflexivity; try lia;
    destruct (Pos.compare_spec mx my) as [Hm1 | Hm1 | Hm1];
    try discriminate H1;
    destruct (Pos.compare_spec my mz) as [Hm2 | Hm2 | Hm2];
    try discriminate H2;
    destruct (Pos.compare_spec mx mz) as [Hm3 | Hm3 | Hm3];
    try reflexivity; lia.
Qed.

Lemma leb_trans (x y z : float) :
  (x <=? y) = true -> (y <=? z) = true -> (x <=? z) = true.
Proof. rewrite !leb_spec. apply SFcompare_trans_le. Qed.

Lemma leb_refl (x : float) : is_nan x = false -> (x <=? x) = true.
Proof.
  rewrite is_nan_spec, leb_spec. unfold SFleb.
  destruct (Prim2SF x) as [s | s | | s m e]; try discriminate; intros _.
  - reflexivity.
  - now destruct s.
  - now rewrite SFcompare_refl_finite.
Qed.

Lemma SFcompare_defined (x y : spec_float) :
  x <> S754_nan -> y <> S754_nan -> exists c, SFcompare x y = Some c.
Proof.
  destruct x as [sx | sx | | sx mx ex], y as [sy | sy | | sy my ey];
    intros Hx Hy; try contradiction; cbn; eauto.
Qed.

(** Two numbers neither of which is below the other are each at most the
    other, unless one is NaN. *)
Lemma unordered_leb (x y : float) :
  is_nan x = false -> is_nan y = false ->
  (x <? y) = false -> (y <? x) = false ->
  (x <=? y) = true /\ (y <=? x) = true.
Proof.
  rewrite !is_nan_spec, !ltb_spec, !leb_spec. unfold SFltb, SFleb.
  intros Hx Hy.
  rewrite (SFcompare_antisym (Prim2SF x) (Prim2SF y)).
  destruct (SFcompare_defined (Prim2SF x) (Prim2SF y)) as [c ->].
  - now destruct (Prim2SF x).
  - now destruct (Prim2SF y).
  - destruct c; cbn; intros H1 H2;
      [now split | discriminate H1 | discriminate H2].
Qed.

(** Only a zero is both at least and at most a zero. *)
Lemma zero_equal_zero (x y : float) :
  is_zero x = true -> (x <=? y) = true -> (y <=? x) = true ->
  is_zero y = true.
Proof.
  rewrite !is_zero_spec, !leb_spec. unfold SFleb.
  destruct (Prim2SF x) as [sx | | |]; try discriminate. intros _.
  destruct (Prim2SF y) as [sy | [] | | [] my ey]; cbn; intros H1 H2;
    try reflexivity; discriminate H1 || discriminate H2.
Qed.

Lemma zeros_leb (x y : float) :
  is_zero x = true -> is_zero y = true -> (x <=? y) = true.
Proof.
  rewrite !is_zero_spec, leb_spec.
  destruct (Prim2SF x) as [sx | | |]; try discriminate.
  now destruct (Prim2SF y) as [sy | | |].
Qed.

Lemma zeros_add (x y : float) :
  is_zero x = true -> is_zero y = true -> is_zero (x + y) = true.
Proof.
  rewrite !is_zero_spec, add_spec.
  destruct (Prim2SF x) as [sx | | |]; try discriminate.
  destruct (Prim2SF y) as [sy | | |]; try discriminate.
  now destruct sx, sy.
Qed.

Lemma zeros_opp (x : float) : is_zero x = true -> is_zero (- x) = true.
Proof.
  rewrite !is_zero_spec, opp_spec.
  now destruct (Prim2SF x) as [sx | | |].
Qed.

(** [Math.max] of two numbers is at least each of them. *)
Lemma Math_max_bounds (x y : float) :
  is_nan x = false -> is_nan y = false ->
  is_nan (Math_max x y) = false
  /\ (x <=? Math_max x y) = true /\ (y <=? Math_max x y) = true.
Proof.
  intros Hx Hy. unfold Math_max. rewrite Hx, Hy. cbn [orb].
  destruct (x <? y) eqn:Hxy;
    [now repeat split; auto using ltb_leb, leb_refl |].
  destruct (y <? x) eqn:Hyx;
    [now repeat split; auto using ltb_leb, leb_refl |].
  destruct (unordered_leb x y Hx Hy Hxy Hyx) as [Hle Hge].
  destruct (is_zero x) eqn:Hz; [| now repeat split; auto using leb_refl].
  assert (Hzy : is_zero y = true)
    by (apply (zero_equal_zero x y Hz Hle Hge)).
  pose proof (zeros_add x y Hz Hzy) as Hsum.
  repeat split; [| now apply zeros_leb | now apply zeros_leb].
  rewrite is_nan_spec. rewrite is_zero_spec in Hsum.
  now destruct (Prim2SF (x + y)).
Qed.

(** [Math.min] of two numbers is at most each of them. *)
Lemma Math_min_bounds (x y : float) :
  is_nan x = false -> is_nan y = false ->
  is_nan (Math_min x y) = false
  /\ (Math_min x y <=? x) = true /\ (Math_min x y <=? y) = true.
Proof.
  intros Hx Hy. unfold Math_min. rewrite Hx, Hy. cbn [orb].
  destruct (x <? y) eqn:Hxy;
    [now repeat split; auto using ltb_leb, leb_refl |].
  destruct (y <? x) eqn:Hyx;
    [now repeat split; auto using ltb_leb, leb_refl |].
  destruct (unordered_leb x y Hx Hy Hxy Hyx) as [Hle Hge].
  destruct (is_zero x) eqn:Hz; [| now repeat split; auto using leb_refl].
  assert (Hzy : is_zero y = true)
    by (apply (zero_equal_zero x y Hz Hle Hge)).
  pose proof (zeros_opp _ (zeros_add _ _ (zeros_opp x Hz) (zeros_opp y Hzy)))
    as Hsum.
  repeat split; [| now apply zeros_leb | now apply zeros_leb].
  rewrite is_nan_spec. rewrite is_zero_spec in Hsum.
  now destruct (Prim2SF (- (- x + - y))).
Qed.

End FloatTotalOrder.

Section WellFormedCandles.

Import Backtest CoinData.
Local Open Scope float_scope.

Variable getUTCDate : float -> float.

Lemma leb_not_nan (x y : float) :
  (x <=? y) = true -> is_nan x = false /\ is_nan y = false.
Proof.
  rewrite !is_nan_spec, leb_spec. unfold SFleb.
  destruct (Prim2SF x) as [sx | sx | | sx mx ex];
    destruct (Prim2SF y) as [sy | sy | | sy my ey]; cbn; intros H;
    try discriminate H; now split.
Qed.

Lemma open_candle_well_formed (timestamp price : float) :
  is_nan price = false -> well_formed (open_candle timestamp price).
Proof. intros H. unfold well_formed. cbn. now rewrite leb_refl. Qed.

(** The state of the loop holds well-formed candles only. *)
Let sound (st : Conversion) : Prop :=
  Forall well_formed (ohlcData st)
  /\ forall candle, currentCandle st = Some candle -> well_formed candle.

Lemma convert_point_sound (st : Conversion) (point : float * float) :
  is_nan (snd point) = false -> sound st ->
  sound (convert_point getUTCDate st point).
Proof.
  destruct point as [timestamp price]. cbn [snd].
  intros Hprice [Hdone Hcur]. unfold convert_point.
  destruct (currentCandle st) as [candle |] eqn:Hc.
  - specialize (Hcur candle eq_refl).
    destruct (currentDay st =? getUTCDate timestamp).
    + split; [exact Hdone |]. cbn. intros c Heq. injection Heq as <-.
      destruct Hcur as (Hlo & Hoh & Hlc & Hch).
      destruct (leb_not_nan _ _ Hlo) as [Hlow _].
      destruct (leb_not_nan _ _ Hoh) as [_ Hhigh].
      destruct (Math_max_bounds (high candle) price Hhigh Hprice)
        as (_ & Hmax1 & Hmax2).
      destruct (Math_min_bounds (low candle) price Hlow Hprice)
        as (_ & Hmin1 & Hmin2).
      unfold well_formed. cbn. repeat split.
      * exact (leb_trans _ _ _ Hmin1 Hlo).
      * exact (leb_trans _ _ _ Hoh Hmax1).
      * exact Hmin2.
      * exact Hmax2.
    + split; cbn.
      * apply Forall_app. split; [exact Hdone | now constructor].
      * intros c Heq. injection Heq as <-.
        now apply open_candle_well_formed.
  - split; [exact Hdone |]. cbn. intros c Heq. injection Heq as <-.
    now apply open_candle_well_formed.
Qed.

Lemma fold_convert_sound (prices : list (float * float)) (st : Conversion) :
  Forall (fun point => is_nan (snd point) = false) prices -> sound st ->
  sound (fold_left (convert_point getUTCDate) prices st).
Proof.
  revert st; induction prices as [| point rest IH]; intros st Hall Hst;
    [exact Hst |].
  inversion Hall as [| ? ? Hpoint Hrest]; subst.
  cbn [fold_left]. apply IH; [exact Hrest |].
  now apply convert_point_sound.
Qed.

End WellFormedCandles.

(** X24.  When no price is NaN, every candle produced by the conversion is well
    formed: its low is at most its open and its close, and these are at most
    its high. *)
Theorem toOHLC_well_formed
    (getUTCDate : float -> float) (prices : list (float * float)) :
  Forall (fun point => is_nan (snd point) = false) prices ->
  Forall well_formed (CoinData.toOHLC getUTCDate prices).
Proof.
  intros Hall. unfold CoinData.toOHLC. cbn zeta.
  destruct (fold_convert_sound getUTCDate prices
              (CoinData.mkConversion [] (-1) None) Hall) as [Hdone Hcur].
  { split; [constructor | discriminate]. }
  destruct (CoinData.currentCandle _) as [candle |]; [| exact Hdone].
  apply Forall_app. split; [exact Hdone |].
  constructor; [now apply Hcur | constructor].
Qed.

Lemma toOHLC_well_formed_witness :
  let day := fun ts => CoinData.Math_floor (ts / 86400000)%float in
  let prices := [(0, 10); (1000, 12); (2000, 9); (86400000, 11)]%float in
  Forall (fun point => is_nan (snd point) = false) prices
  /\ Forall well_formed (CoinData.toOHLC day prices).
Proof.
  intros day prices.
  assert (Hall : Forall (fun point => is_nan (snd point) = false) prices)
    by (repeat constructor).
  split; [exact Hall |].
  apply (toOHLC_well_formed day prices Hall).
Defined.
